(** * Congestion monitor: a shallow embedding of [live_visualizer.py]

    The development follows the class [CongestionVisualizer]: its
    constructor, the scorer [calculate_congestion], the sampler callback
    [update_plot] and the per-packet body of [capture_packets].

    Conventions of the embedding.
    - Python [float] values are read as exact rationals ([Q]); Python
      [int] values are [Z].  Statements about rationals use [==], [<=]
      and [<] of [Q].
    - [None] is [None]; a field that may hold [None] has an [option] type.
    - Both [update_plot] and the packet body run their state changes
      inside [with self.lock], so each is one atomic step on the object.
    - A Python exception does not roll back the assignments made before
      it: a computation returns its outcome together with the object as
      it stands at that point.
    - The drawing calls (axes, lines, limits) do not feed back into the
      fields modelled here and are left out.

    Two further parts follow the other programs of the repository: the
    connection handler [handle_client] of [server.py] and the sending
    loop [send_messages] of [client.py]. *)

From Stdlib Require Import String ZArith QArith Qminmax List Bool Lia Lqa.
From Stdlib Require Strings.Byte.
From Stdlib Require Import DecimalString.
Import ListNotations.

Local Open Scope Q_scope.

(** ** Python values and exceptions *)

Inductive exn : Set :=
| ZeroDivisionError
| AttributeError
| ValueError.

Inductive result (A : Type) : Type :=
| Ok (a : A)
| Raise (e : exn).

Arguments Ok {A} a.
Arguments Raise {A} e.

Definition result_bind {A B : Type} (r : result A) (k : A -> result B)
  : result B :=
  match r with
  | Ok a => k a
  | Raise e => Raise e
  end.

Declare Scope result_scope.
Delimit Scope result_scope with result.
Notation "x <-- c ;; k" := (result_bind c (fun x => k))
  (at level 61, c at next level, right associativity) : result_scope.

(** [a < b] on floats, as a boolean. *)
Definition Qltb (a b : Q) : bool := negb (Qle_bool b a).

(** [a / b] on numbers: true division, raising on a zero divisor. *)
Definition truediv (a b : Q) : result Q :=
  if Qeq_bool b 0 then Raise ZeroDivisionError else Ok (a / b).

(** [min(a, b)]: the first argument unless the second is strictly less. *)
Definition py_min (a b : Q) : Q := if Qltb b a then b else a.

(** ** [collections.deque] with [maxlen] *)

Record deque (A : Type) : Type := mkDeque {
  maxlen : nat;
  items : list A
}.

Arguments mkDeque {A} maxlen items.
Arguments maxlen {A} d.
Arguments items {A} d.

(** [deque(maxlen=n)] *)
Definition deque_new {A : Type} (n : nat) : deque A := mkDeque n [].

(** [d.append(x)]: push on the right; when that overflows [maxlen], drop
    one element from the left. *)
Definition deque_append {A : Type} (d : deque A) (x : A) : deque A :=
  let l := items d ++ [x] in
  mkDeque (maxlen d) (if (maxlen d <? length l)%nat then tl l else l).

(** [len(d)] *)
Definition deque_len {A : Type} (d : deque A) : nat := length (items d).

(** ** The object *)

Record CongestionVisualizer : Type := mkViz {
  history_length : nat;
  time_values : deque Q;
  cwnd_values : deque (option Z);
  max_cwnd : Z;
  rtt_values : deque (option Q);
  throughput_values : deque Q;
  packet_count : Z;
  last_throughput_time : Q;
  congestion_values : deque (option Q);
  congestion_threshold_rtt : Q;
  congestion_threshold_cwnd : Q;
  congestion_events : list Q;
  start_time : Q;
  latest_cwnd : option Z;
  latest_rtt : option Q
}.

(** Field assignments [self.f = v]. *)
Definition set_time_values v (s : CongestionVisualizer) :=
  mkViz (history_length s) v (cwnd_values s) (max_cwnd s) (rtt_values s)
    (throughput_values s) (packet_count s) (last_throughput_time s)
    (congestion_values s) (congestion_threshold_rtt s)
    (congestion_threshold_cwnd s) (congestion_events s) (start_time s)
    (latest_cwnd s) (latest_rtt s).

Definition set_cwnd_values v (s : CongestionVisualizer) :=
  mkViz (history_length s) (time_values s) v (max_cwnd s) (rtt_values s)
    (throughput_values s) (packet_count s) (last_throughput_time s)
    (congestion_values s) (congestion_threshold_rtt s)
    (congestion_threshold_cwnd s) (congestion_events s) (start_time s)
    (latest_cwnd s) (latest_rtt s).

Definition set_max_cwnd v (s : CongestionVisualizer) :=
  mkViz (history_length s) (time_values s) (cwnd_values s) v (rtt_values s)
    (throughput_values s) (packet_count s) (last_throughput_time s)
    (congestion_values s) (congestion_threshold_rtt s)
    (congestion_threshold_cwnd s) (congestion_events s) (start_time s)
    (latest_cwnd s) (latest_rtt s).

Definition set_rtt_values v (s : CongestionVisualizer) :=
  mkViz (history_length s) (time_values s) (cwnd_values s) (max_cwnd s) v
    (throughput_values s) (packet_count s) (last_throughput_time s)
    (congestion_values s) (congestion_threshold_rtt s)
    (congestion_threshold_cwnd s) (congestion_events s) (start_time s)
    (latest_cwnd s) (latest_rtt s).

Definition set_throughput_values v (s : CongestionVisualizer) :=
  mkViz (history_length s) (time_values s) (cwnd_values s) (max_cwnd s)
    (rtt_values s) v (packet_count s) (last_throughput_time s)
    (congestion_values s) (congestion_threshold_rtt s)
    (congestion_threshold_cwnd s) (congestion_events s) (start_time s)
    (latest_cwnd s) (latest_rtt s).

Definition set_packet_count v (s : CongestionVisualizer) :=
  mkViz (history_length s) (time_values s) (cwnd_values s) (max_cwnd s)
    (rtt_values s) (throughput_values s) v (last_throughput_time s)
    (congestion_values s) (congestion_threshold_rtt s)
    (congestion_threshold_cwnd s) (congestion_events s) (start_time s)
    (latest_cwnd s) (latest_rtt s).

Definition set_last_throughput_time v (s : CongestionVisualizer) :=
  mkViz (history_length s) (time_values s) (cwnd_values s) (max_cwnd s)
    (rtt_values s) (throughput_values s) (packet_count s) v
    (congestion_values s) (congestion_threshold_rtt s)
    (congestion_threshold_cwnd s) (congestion_events s) (start_time s)
    (latest_cwnd s) (latest_rtt s).

Definition set_congestion_values v (s : CongestionVisualizer) :=
  mkViz (history_length s) (time_values s) (cwnd_values s) (max_cwnd s)
    (rtt_values s) (throughput_values s) (packet_count s)
    (last_throughput_time s) v (congestion_threshold_rtt s)
    (congestion_threshold_cwnd s) (congestion_events s) (start_time s)
    (latest_cwnd s) (latest_rtt s).

Definition set_congestion_events v (s : CongestionVisualizer) :=
  mkViz (history_length s) (time_values s) (cwnd_values s) (max_cwnd s)
    (rtt_values s) (throughput_values s) (packet_count s)
    (last_throughput_time s) (congestion_values s)
    (congestion_threshold_rtt s) (congestion_threshold_cwnd s) v
    (start_time s) (latest_cwnd s) (latest_rtt s).

Definition set_latest_cwnd v (s : CongestionVisualizer) :=
  mkViz (history_length s) (time_values s) (cwnd_values s) (max_cwnd s)
    (rtt_values s) (throughput_values s) (packet_count s)
    (last_throughput_time s) (congestion_values s)
    (congestion_threshold_rtt s) (congestion_threshold_cwnd s)
    (congestion_events s) (start_time s) v (latest_rtt s).

Definition set_latest_rtt v (s : CongestionVisualizer) :=
  mkViz (history_length s) (time_values s) (cwnd_values s) (max_cwnd s)
    (rtt_values s) (throughput_values s) (packet_count s)
    (last_throughput_time s) (congestion_values s)
    (congestion_threshold_rtt s) (congestion_threshold_cwnd s)
    (congestion_events s) (start_time s) (latest_cwnd s) v.

(** ** Statements that change the object and may raise *)

Definition M (A : Type) : Type :=
  CongestionVisualizer -> result A * CongestionVisualizer.

Definition ret {A : Type} (a : A) : M A := fun s => (Ok a, s).

Definition bind {A B : Type} (c : M A) (k : A -> M B) : M B :=
  fun s =>
    match c s with
    | (Ok a, s') => k a s'
    | (Raise e, s') => (Raise e, s')
    end.

Definition get : M CongestionVisualizer := fun s => (Ok s, s).

Definition modify (f : CongestionVisualizer -> CongestionVisualizer)
  : M unit := fun s => (Ok tt, f s).

Definition lift {A : Type} (r : result A) : M A := fun s => (r, s).

(** [try: c except Exception: h] *)
Definition try_except {A : Type} (c : M A) (h : exn -> M A) : M A :=
  fun s =>
    match c s with
    | (Ok a, s') => (Ok a, s')
    | (Raise e, s') => h e s'
    end.

Declare Scope stmt_scope.
Delimit Scope stmt_scope with stmt.
Notation "x <- c ;; k" := (bind c (fun x => k))
  (at level 61, c at next level, right associativity) : stmt_scope.
Notation "c ;; k" := (bind c (fun _ => k))
  (at level 61, right associativity) : stmt_scope.

(** ** [__init__]

    [clock0] and [clock1] are the two readings of [time.time()] taken by
    the constructor, in program order: the first goes to
    [last_throughput_time], the second to [start_time]. *)

(** The fields as the constructor leaves them, once the five
    [deque(maxlen=history_length)] calls have succeeded.  Every buffer is
    seeded with one dummy [0]. *)
Definition fresh (n : nat) (congestion_threshold_rtt : Q)
    (congestion_threshold_cwnd : Q) (clock0 clock1 : Q)
  : CongestionVisualizer :=
  {| history_length := n;
     time_values := deque_append (deque_new n) 0;
     cwnd_values := deque_append (deque_new n) (Some 0%Z);
     max_cwnd := 1000;
     rtt_values := deque_append (deque_new n) (Some 0);
     throughput_values := deque_append (deque_new n) 0;
     packet_count := 0;
     last_throughput_time := clock0;
     congestion_values := deque_append (deque_new n) (Some 0);
     congestion_threshold_rtt := congestion_threshold_rtt;
     congestion_threshold_cwnd := congestion_threshold_cwnd;
     congestion_events := [];
     start_time := clock1;
     latest_cwnd := None;
     latest_rtt := None |}.

(** A negative [history_length] makes [deque(maxlen=...)] raise
    [ValueError], and no object comes out. *)
Definition init (history_length : Z) (congestion_threshold_rtt : Q)
    (congestion_threshold_cwnd : Q) (clock0 clock1 : Q)
  : result CongestionVisualizer :=
  if (history_length <? 0)%Z then Raise ValueError
  else Ok (fresh (Z.to_nat history_length) congestion_threshold_rtt
             congestion_threshold_cwnd clock0 clock1).

(** ** [calculate_congestion] *)

Definition calculate_congestion (self : CongestionVisualizer)
    (rtt : option Q) (cwnd : option Z) : result (option Q) :=
  match rtt, cwnd with
  | Some rtt, Some cwnd =>
      (q <-- truediv rtt (congestion_threshold_rtt self) ;;
       let norm_rtt := py_min 1 q in
       norm_cwnd <--
         (if (0 <? max_cwnd self)%Z then
            w <-- truediv (inject_Z cwnd) (inject_Z (max_cwnd self)) ;;
            Ok (1 - py_min 1 w)
          else Ok 0) ;;
       Ok (Some ((norm_rtt + norm_cwnd) / 2)))%result
  | _, _ => Ok None
  end.

(** ** [update_plot]

    [clock] is the reading of [time.time()] at the head of the callback.
    The value returned is the local [is_congested].  What is embedded is
    the block under [with self.lock]: an outcome [Raise] is an exception
    of that block, and an outcome [Ok] says that the block ran to its
    end, not that the drawing calls after it do. *)

Definition append_throughput (x : Q) : M unit :=
  modify (fun s => set_throughput_values (deque_append (throughput_values s) x) s).

Definition append_time (x : Q) : M unit :=
  modify (fun s => set_time_values (deque_append (time_values s) x) s).

Definition append_cwnd (x : option Z) : M unit :=
  modify (fun s => set_cwnd_values (deque_append (cwnd_values s) x) s).

Definition append_rtt (x : option Q) : M unit :=
  modify (fun s => set_rtt_values (deque_append (rtt_values s) x) s).

Definition append_congestion (x : option Q) : M unit :=
  modify (fun s => set_congestion_values (deque_append (congestion_values s) x) s).

Definition append_event (x : Q) : M unit :=
  modify (fun s => set_congestion_events (congestion_events s ++ [x]) s).

(** The callback, block by block in the order of the source.
    [current_time] is the local of that name. *)

(* Calculate throughput *)
Definition update_throughput (current_time : Q) : M unit :=
  (self <- get ;;
   let packets_since_last := packet_count self in
   modify (set_packet_count 0%Z) ;;
   let time_elapsed := current_time - last_throughput_time self in
   if Qltb 0 time_elapsed then
     throughput <- lift (truediv (inject_Z packets_since_last) time_elapsed) ;;
     append_throughput throughput ;;
     modify (set_last_throughput_time current_time)
   else ret tt)%stmt.

(* Update window size if available *)
Definition update_cwnd : M unit :=
  (self <- get ;;
   match latest_cwnd self with
   | Some c =>
       append_cwnd (Some c) ;;
       (* Update max window size seen *)
       if (max_cwnd self <? c)%Z then modify (set_max_cwnd c) else ret tt
   | None =>
       (* Maintain the array size *)
       append_cwnd None
   end)%stmt.

(* Update RTT if available *)
Definition update_rtt : M unit :=
  (self <- get ;;
   match latest_rtt self with
   | Some r => append_rtt (Some r)
   | None =>
       (* Maintain the array size *)
       append_rtt None
   end)%stmt.

(* Calculate congestion indicator *)
Definition update_congestion (current_time : Q) : M bool :=
  (self <- get ;;
   congestion <-
     lift (calculate_congestion self (latest_rtt self) (latest_cwnd self)) ;;
   match congestion with
   | Some c =>
       append_congestion (Some c) ;;
       (* Check if we're in a congested state *)
       if Qltb (7 # 10) c then
         append_event current_time ;;
         ret true
       else ret false
   | None =>
       (* Maintain the array size *)
       append_congestion None ;;
       ret false
   end)%stmt.

Definition update_plot (clock : Q) : M bool :=
  (self <- get ;;
   let current_time := clock - start_time self in
   update_throughput current_time ;;
   (* Update time values *)
   append_time current_time ;;
   update_cwnd ;;
   update_rtt ;;
   update_congestion current_time)%stmt.

(** The object after one callback, whatever its outcome. *)
Definition tick (clock : Q) (s : CongestionVisualizer) : CongestionVisualizer :=
  snd (update_plot clock s).

(** The object after a run of callbacks, one per clock reading. *)
Definition ticks (clocks : list Q) (s : CongestionVisualizer)
  : CongestionVisualizer :=
  fold_left (fun s c => tick c s) clocks s.

(** ** [capture_packets]: the loop over captured packets *)

(** What the loop looks at in a packet: the [tcp] layer, when there is
    one, and in it the two fields, each a string when present. *)
Record tcp_layer : Type := mkTcp {
  window_size_value : option string;
  analysis_ack_rtt : option string
}.

Record packet : Type := mkPacket {
  tcp : option tcp_layer
}.

Section Capture.

(** The builtins [int(.)] and [float(.)] on a field's text; [None]
    stands for the [ValueError] they raise on text they reject. *)
Variable py_int : string -> option Z.
Variable py_float : string -> option Q.

Definition parse {A : Type} (f : string -> option A) (x : string) : M A :=
  match f x with
  | Some v => ret v
  | None => lift (Raise ValueError)
  end.

(** [packet.tcp]: [AttributeError] when the packet has no such layer. *)
Definition get_tcp (p : packet) : M tcp_layer :=
  match tcp p with
  | Some l => ret l
  | None => lift (Raise AttributeError)
  end.

(** The statements under [with self.lock] for one packet. *)
Definition packet_body (p : packet) : M unit :=
  (* Update packet count for throughput calculation *)
  (modify (fun s => set_packet_count (packet_count s + 1)%Z s) ;;
   (* Extract TCP window size if available *)
   l <- get_tcp p ;;
   match window_size_value l with
   | Some x =>
       cwnd <- parse py_int x ;;
       modify (set_latest_cwnd (Some cwnd))
   | None => ret tt
   end ;;
   (* Extract RTT if available *)
   l <- get_tcp p ;;
   match analysis_ack_rtt l with
   | Some x =>
       f <- parse py_float x ;;
       let rtt := f * 1000 in
       modify (set_latest_rtt (Some rtt))
   | None => ret tt
   end)%stmt.

(** One iteration of the loop: both handlers end in [continue]. *)
Definition process_packet (p : packet) : M unit :=
  try_except (packet_body p) (fun _ => ret tt).

Definition ingest (p : packet) (s : CongestionVisualizer)
  : CongestionVisualizer :=
  snd (process_packet p s).

(** The loop over the packets captured so far. *)
Definition capture_packets (ps : list packet) (s : CongestionVisualizer)
  : CongestionVisualizer :=
  fold_left (fun s p => ingest p s) ps s.

(** ** Interleavings of the two threads

    Each step holds the lock for its whole duration, so a run of the
    program is a sequence of callbacks and packets. *)
Inductive event : Type :=
| Tick (clock : Q)
| Capture (p : packet).

Definition step (e : event) (s : CongestionVisualizer)
  : CongestionVisualizer :=
  match e with
  | Tick c => tick c s
  | Capture p => ingest p s
  end.

Definition run (es : list event) (s : CongestionVisualizer)
  : CongestionVisualizer :=
  fold_left (fun s e => step e s) es s.

(** The number of callbacks in a run. *)
Fixpoint count_ticks (es : list event) : nat :=
  match es with
  | [] => O
  | Tick _ :: es' => S (count_ticks es')
  | Capture _ :: es' => count_ticks es'
  end.

(** The local [time_elapsed] of the callback, from the clock reading
    and the object it starts on. *)
Definition time_elapsed (clock : Q) (s : CongestionVisualizer) : Q :=
  clock - start_time s - last_throughput_time s.

(** Every callback of the run found [time_elapsed > 0]. *)
Fixpoint all_elapsed_positive (es : list event) (s : CongestionVisualizer)
  : Prop :=
  match es with
  | [] => True
  | e :: es' =>
      match e with
      | Tick c => 0 < time_elapsed c s
      | Capture _ => True
      end
      /\ all_elapsed_positive es' (step e s)
  end.

End Capture.

(** ** Vocabulary of the statements *)

(** The score as the specification words it. *)
Definition spec_norm_rtt (rtt_ms rtt_threshold_ms : Q) : Q :=
  Qmin 1 (rtt_ms / rtt_threshold_ms).

Definition spec_norm_window (window_size max_window_size_seen : Z) : Q :=
  if (0 <? max_window_size_seen)%Z
  then 1 - Qmin 1 (inject_Z window_size / inject_Z max_window_size_seen)
  else 0.

Definition spec_score (rtt_ms : Q) (window_size max_window_size_seen : Z)
    (rtt_threshold_ms : Q) : Q :=
  (spec_norm_rtt rtt_ms rtt_threshold_ms
   + spec_norm_window window_size max_window_size_seen) / 2.

(** [d'] is [d] after a first-in first-out append of [x]: below capacity
    the buffer grows by [x]; at capacity the oldest element leaves and
    [x] enters at the other end. *)
Definition fifo_append {A : Type} (d d' : deque A) (x : A) : Prop :=
  maxlen d' = maxlen d
  /\ ((deque_len d < maxlen d)%nat -> items d' = items d ++ [x])
  /\ (deque_len d = maxlen d -> (0 < maxlen d)%nat ->
      exists oldest rest, items d = oldest :: rest /\ items d' = rest ++ [x]).

(** The event recorded by a callback, if any. *)
Definition event_appended (clock : Q) (s : CongestionVisualizer) : Prop :=
  congestion_events (tick clock s) =
  congestion_events s ++ [clock - start_time s].

(** The score of a callback: the scorer on the readings it found, with
    the maximum as the callback leaves it. *)
Definition tick_score (clock : Q) (s : CongestionVisualizer)
  : result (option Q) :=
  calculate_congestion (tick clock s) (latest_rtt s) (latest_cwnd s).

(** Two sentences of the specification that the code does not follow,
    stated as they are written. *)

(** "all five sequences always have equal length, equal to the number of
    ticks so far, capped at [history_length]" *)
Definition claimed_history_lengths : Prop :=
  forall hl thr thc clock0 clock1 s0 clocks,
    init hl thr thc clock0 clock1 = Ok s0 ->
    let s := ticks clocks s0 in
    let n := Nat.min (length clocks) (Z.to_nat hl) in
    deque_len (time_values s) = n
    /\ deque_len (cwnd_values s) = n
    /\ deque_len (rtt_values s) = n
    /\ deque_len (throughput_values s) = n
    /\ deque_len (congestion_values s) = n.

(** "Congestion event recorded at tick k iff
    [score_k > congestion_event_threshold]", the threshold being the
    configured one, in (0,1]. *)
Definition claimed_configured_event_threshold : Prop :=
  forall clock s,
    0 < congestion_threshold_cwnd s -> congestion_threshold_cwnd s <= 1 ->
    (event_appended clock s <->
     exists c, tick_score clock s = Ok (Some c)
               /\ congestion_threshold_cwnd s < c).

(** ** The callback as a function on the object

    One function per block of [update_plot]; the lemmas [*_run] below
    show that each block computes it. *)

Definition after_throughput (ct : Q) (s : CongestionVisualizer) :=
  let s1 := set_packet_count 0%Z s in
  let e := ct - last_throughput_time s in
  if Qltb 0 e then
    set_last_throughput_time ct
      (set_throughput_values
         (deque_append (throughput_values s) (inject_Z (packet_count s) / e))
         s1)
  else s1.

Definition after_time (ct : Q) (s : CongestionVisualizer) :=
  set_time_values (deque_append (time_values s) ct) s.

Definition after_cwnd (s : CongestionVisualizer) :=
  let s1 := set_cwnd_values (deque_append (cwnd_values s) (latest_cwnd s)) s in
  match latest_cwnd s with
  | Some c => if (max_cwnd s <? c)%Z then set_max_cwnd c s1 else s1
  | None => s1
  end.

Definition after_rtt (s : CongestionVisualizer) :=
  set_rtt_values (deque_append (rtt_values s) (latest_rtt s)) s.

Definition after_congestion (ct : Q) (s : CongestionVisualizer) :=
  match calculate_congestion s (latest_rtt s) (latest_cwnd s) with
  | Ok q =>
      let s1 :=
        set_congestion_values (deque_append (congestion_values s) q) s in
      match q with
      | Some c =>
          if Qltb (7 # 10) c
          then set_congestion_events (congestion_events s ++ [ct]) s1
          else s1
      | None => s1
      end
  | Raise _ => s
  end.

(** ** Concrete objects and packets used in the examples *)

(** The defaults of the command line, both constructor clock readings 0. *)
Definition viz_default : CongestionVisualizer :=
  fresh 100 100 (7 # 10) 0 0.

(** [--cwnd-threshold 0.9], with a window of 100 and an RTT of 80 ms
    already seen. *)
Definition viz_strict : CongestionVisualizer :=
  set_latest_rtt (Some 80)
    (set_latest_cwnd (Some 100%Z) (fresh 100 100 (9 # 10) 0 0)).

(** Parsers that know the texts used in the examples. *)
Definition demo_int (x : string) : option Z :=
  if String.eqb x "100" then Some 100%Z
  else if String.eqb x "2000" then Some 2000%Z
  else None.

Definition demo_float (x : string) : option Q :=
  if String.eqb x "0.15" then Some (15 # 100)
  else None.

Definition pkt_full : packet :=
  mkPacket (Some (mkTcp (Some "100"%string) (Some "0.15"%string))).

Definition pkt_bare : packet :=
  mkPacket (Some (mkTcp None None)).

Definition pkt_bad_window : packet :=
  mkPacket (Some (mkTcp (Some "junk"%string) (Some "0.15"%string))).

Definition pkt_no_tcp : packet := mkPacket None.

(** Two packets and two callbacks, interleaved. *)
Definition es_demo : list event :=
  [Capture pkt_full; Tick (1 # 2); Capture pkt_bare; Tick 1].

(** A constructor run at clock reading 1000 s, then 250 packets. *)
Definition viz_late : CongestionVisualizer :=
  capture_packets demo_int demo_float (repeat pkt_bare 250)
    (fresh 100 100 (7 # 10) 1000 1000).

(** [viz_default] after 250 packets. *)
Definition viz_250 : CongestionVisualizer :=
  capture_packets demo_int demo_float (repeat pkt_bare 250) viz_default.

(** ** Invariants of the buffers along a run *)

(** Every buffer still has the capacity given at construction. *)
Definition capacities_kept (s : CongestionVisualizer) : Prop :=
  maxlen (time_values s) = history_length s
  /\ maxlen (cwnd_values s) = history_length s
  /\ maxlen (rtt_values s) = history_length s
  /\ maxlen (throughput_values s) = history_length s
  /\ maxlen (congestion_values s) = history_length s.

(** After [k] callbacks: the seed and one entry per callback, capped. *)
Definition filled (k : nat) (s : CongestionVisualizer) : nat :=
  Nat.min (S k) (history_length s).

Definition aligned (k : nat) (s : CongestionVisualizer) : Prop :=
  deque_len (time_values s) = filled k s
  /\ deque_len (cwnd_values s) = filled k s
  /\ deque_len (rtt_values s) = filled k s
  /\ deque_len (congestion_values s) = filled k s.

(** ** The drawing part of the callback: the x-axis window *)

(** [max(a, b)]: the first argument unless the second is strictly
    greater. *)
Definition py_max (a b : Q) : Q := if Qltb a b then b else a.

(** The limits [(x_min, x_max)] that the callback sets on the four axes
    from [time_list = list(self.time_values)]: the last 20 seconds up to
    one second past the newest sample.  Nothing is set on an empty
    list. *)
Definition x_limits (time_list : list Q) : option (Q * Q) :=
  match time_list with
  | [] => None
  | _ :: _ =>
      let newest := last time_list 0 in
      Some (py_max 0 (newest - 20), newest + 1)
  end.

(** ** More vocabulary *)

(** The last [n] elements of a list. *)
Definition lastn {A : Type} (n : nat) (l : list A) : list A :=
  skipn (length l - n) l.

(** The clock readings of the callbacks of a run, in order. *)
Fixpoint tick_clocks (es : list event) : list Q :=
  match es with
  | [] => []
  | Tick c :: es' => c :: tick_clocks es'
  | Capture _ :: es' => tick_clocks es'
  end.

(** * The echo server: [handle_client] of [server.py]

    One connection is served by a loop of receive, log, echo.  What the
    world does in one turn of the loop is given from outside: what
    [recv] returns or raises, the timestamp read, whether the write to
    the log file goes through, and whether [sendall] goes through.  The
    lines printed on the terminal are left out; of [data.decode()] only
    success or failure is kept. *)

Module Server.

Inductive exn : Set :=
| ConnectionResetError
| UnicodeDecodeError
| OSError.

Inductive outcome (A : Type) : Type :=
| Done (a : A)
| Fail (e : exn).

Arguments Done {A} a.
Arguments Fail {A} e.

Record turn : Type := mkTurn {
  recv : outcome (list Byte.byte);
  timestamp : string;
  write_ok : bool;
  sendall : outcome unit
}.

(** What the handler has done to the connection and to the log file. *)
Record connection : Type := mkConn {
  sent : list (list Byte.byte);
  log_file : list string;
  closed : bool
}.

Definition opened : connection := mkConn [] [] false.

(** [str(n)] for a size. *)
Definition str_of_nat (n : nat) : string :=
  NilZero.string_of_uint (Nat.to_uint n).

(** [f"{timestamp},{packet_size}\n"] *)
Definition log_entry (timestamp : string) (packet_size : nat) : string :=
  (timestamp ++ "," ++ str_of_nat packet_size
   ++ String (Ascii.ascii_of_nat 10) EmptyString)%string.

(** How the [while True] loop is left, if it is. *)
Inductive loop_end : Set :=
| Pending
| Break
| Raised (e : exn).

Section Handler.

(** [data.decode()] succeeds. *)
Variable utf8_valid : list Byte.byte -> bool.

Fixpoint serve_loop (turns : list turn) (c : connection)
  : loop_end * connection :=
  match turns with
  | [] => (Pending, c)
  | t :: rest =>
      match recv t with
      | Fail e => (Raised e, c)
      | Done data =>
          match data with
          | [] => (Break, c)
          | _ :: _ =>
              let packet_size := length data in
              let entry := log_entry (timestamp t) packet_size in
              (* the inner try: a failed write is reported and dropped *)
              let c1 :=
                if write_ok t
                then mkConn (sent c) (log_file c ++ [entry]) (closed c)
                else c in
              if utf8_valid data then
                match sendall t with
                | Done _ =>
                    serve_loop rest
                      (mkConn (sent c1 ++ [data]) (log_file c1) (closed c1))
                | Fail e => (Raised e, c1)
                end
              else (Raised UnicodeDecodeError, c1)
          end
      end
  end.

(** How the call stands after the turns given. *)
Inductive status : Set :=
| Running
| Returned
| Propagated (e : exn).

Definition close (c : connection) : connection :=
  mkConn (sent c) (log_file c) true.

(** The [try] around the loop: [ConnectionResetError] is caught, anything
    else goes on to the caller; [finally] closes the connection either
    way. *)
Definition handle_client (turns : list turn) (c : connection)
  : status * connection :=
  match serve_loop turns c with
  | (Pending, c') => (Running, c')
  | (Break, c') => (Returned, close c')
  | (Raised ConnectionResetError, c') => (Returned, close c')
  | (Raised e, c') => (Propagated e, close c')
  end.

End Handler.

(** The chunks that [recv] hands over, turn by turn. *)
Fixpoint chunks (turns : list turn) : list (list Byte.byte) :=
  match turns with
  | [] => []
  | t :: rest =>
      match recv t with
      | Done data => data :: chunks rest
      | Fail _ => chunks rest
      end
  end.

(** A turn that goes well: a non-empty chunk that decodes and is sent. *)
Definition good_turn (utf8_valid : list Byte.byte -> bool) (t : turn) : Prop :=
  exists data,
    recv t = Done data /\ data <> [] /\ utf8_valid data = true
    /\ sendall t = Done tt.

(** The line that a turn adds to the log file when its write goes
    through. *)
Definition entry_of (t : turn) : string :=
  match recv t with
  | Done data => log_entry (timestamp t) (length data)
  | Fail _ => EmptyString
  end.

(** The same turns with every log write failing. *)
Definition without_log (t : turn) : turn :=
  mkTurn (recv t) (timestamp t) false (sendall t).

(** Turns used in the examples. *)
Definition ascii_only (data : list Byte.byte) : bool :=
  forallb (fun b => Nat.ltb (Byte.to_nat b) 128) data.

Definition turn_hello : turn :=
  mkTurn (Done [Byte.x48; Byte.x65; Byte.x6c; Byte.x6c; Byte.x6f]) "2024-01-01 00:00:00" true (Done tt).

Definition turn_eof : turn :=
  mkTurn (Done []) "2024-01-01 00:00:01" true (Done tt).

Definition turn_binary : turn :=
  mkTurn (Done [Byte.xff; Byte.xfe]) "2024-01-01 00:00:02" true (Done tt).

End Server.

(** * The traffic generator: [send_messages] of [client.py]

    The loop runs until interrupted; the model follows it for a given
    number of iterations.  What is random or comes from the world is
    given from outside: the value of [random.random()] and of
    [random.uniform(min_interval, base_interval)] in each iteration, the
    text built by [generate_random_string] for each message, and whether
    [sendall] goes through for it.  A message is kept as the text handed
    to [encode]; the lines printed are left out, apart from the counts
    shown by the status line. *)

Module Client.

Inductive exn : Set :=
| ValueError
| OverflowError
| OSError.

Record params : Type := mkParams {
  base_interval : Q;
  min_interval : Q;
  burst_probability : Q;
  burst_messages : Z;
  burst_interval : Q;
  min_size : Z;
  max_size : Z
}.

(** The defaults of the command line. *)
Definition defaults : params :=
  mkParams (1 # 2) (1 # 10) (1 # 10) 10 (1 # 100) 10 1024.

Record state : Type := mkState {
  message_count : nat;
  sent : list string;
  slept : list Q;
  status_lines : list nat
}.

Definition start : state := mkState 0 [] [] [].

(** Still in the loop, or out of it through an exception. *)
Inductive status : Set :=
| Running
| Failed (e : exn).

(** [f"Message {message_count}: {text}"] *)
Definition format_message (message_count : nat) (text : string) : string :=
  ("Message " ++ NilZero.string_of_uint (Nat.to_uint message_count)
   ++ ": " ++ text)%string.

Section Loop.

Variable p : params.

(** The text produced for the message of a given number. *)
Variable random_text : nat -> string.
(** [sendall] goes through for the message of a given number. *)
Variable send_ok : nat -> bool.
(** The length is beyond what [time.sleep] can convert to the time type
    of the platform. *)
Variable sleep_too_long : Q -> bool.
(** [random.random()] and [random.uniform(...)] in a given iteration. *)
Variable random_draw : nat -> Q.
Variable uniform_draw : nat -> Q.

(** [generate_random_string(min_size, max_size)]: [random.randint]
    raises on an empty range. *)
Definition generate_random_string (n : nat) : option string :=
  if (max_size p <? min_size p)%Z then None else Some (random_text n).

(** Build the message, send it, count it. *)
Definition send_one (st : state) : status * state :=
  match generate_random_string (message_count st) with
  | None => (Failed ValueError, st)
  | Some text =>
      let message := format_message (message_count st) text in
      if send_ok (message_count st) then
        (Running,
         mkState (S (message_count st)) (sent st ++ [message]) (slept st)
           (status_lines st))
      else (Failed OSError, st)
  end.

(** [time.sleep(x)]: a length that does not convert raises
    OverflowError, a negative one ValueError. *)
Definition sleep (x : Q) (st : state) : status * state :=
  if sleep_too_long x then (Failed OverflowError, st)
  else if Qltb x 0 then (Failed ValueError, st)
  else
    (Running,
     mkState (message_count st) (sent st) (slept st ++ [x])
       (status_lines st)).

(** [for _ in range(burst_messages)], with [k] turns left. *)
Fixpoint burst (k : nat) (st : state) : status * state :=
  match k with
  | O => (Running, st)
  | S k' =>
      match send_one st with
      | (Running, st1) =>
          match sleep (burst_interval p) st1 with
          | (Running, st2) => burst k' st2
          | failed => failed
          end
      | failed => failed
      end
  end.

(** One message, then a pause of at least [min_interval]. *)
Definition single (i : nat) (st : state) : status * state :=
  match send_one st with
  | (Running, st1) =>
      let interval := py_max (min_interval p) (uniform_draw i) in
      sleep interval st1
  | failed => failed
  end.

(** The status line, every time the count is a multiple of 100. *)
Definition report (st : state) : state :=
  if Nat.eqb (message_count st mod 100) 0
  then mkState (message_count st) (sent st) (slept st)
         (status_lines st ++ [message_count st])
  else st.

(** Iteration number [i] of the [while True] loop. *)
Definition iteration (i : nat) (st : state) : status * state :=
  match
    (if Qltb (random_draw i) (burst_probability p)
     then burst (Z.to_nat (burst_messages p)) st
     else single i st)
  with
  | (Running, st1) => (Running, report st1)
  | failed => failed
  end.

(** The first [n] iterations, counted from [i]. *)
Fixpoint iterations (n i : nat) (st : state) : status * state :=
  match n with
  | O => (Running, st)
  | S n' =>
      match iteration i st with
      | (Running, st1) => iterations n' (S i) st1
      | failed => failed
      end
  end.

Definition send_messages (n : nat) : status * state := iterations n 0 start.

End Loop.

End Client.

(** * Properties *)

(** ** Arithmetic on the numbers of the program *)

Lemma Qltb_lt a b : Qltb a b = true <-> a < b.
Proof.
  unfold Qltb. rewrite negb_true_iff.
  split; intro H.
  - apply Qnot_le_lt. intro L. apply Qle_bool_iff in L. congruence.
  - destruct (Qle_bool b a) eqn:E; [|reflexivity].
    apply Qle_bool_iff in E. lra.
Qed.

Lemma Qltb_ge a b : Qltb a b = false <-> b <= a.
Proof.
  unfold Qltb. rewrite negb_false_iff. apply Qle_bool_iff.
Qed.

Lemma py_min_cases a b :
  (b < a /\ py_min a b = b) \/ (a <= b /\ py_min a b = a).
Proof.
  unfold py_min. destruct (Qltb b a) eqn:E.
  - left. split; [now apply Qltb_lt | reflexivity].
  - right. split; [now apply Qltb_ge | reflexivity].
Qed.

Lemma py_min_Qmin a b : py_min a b == Qmin a b.
Proof.
  destruct (py_min_cases a b) as [[H ->]|[H ->]].
  - symmetry. apply Q.min_r. lra.
  - symmetry. apply Q.min_l. exact H.
Qed.

Lemma py_min_mono a b : a <= b -> py_min 1 a <= py_min 1 b.
Proof.
  intro H.
  destruct (py_min_cases 1 a) as [[? ->]|[? ->]];
  destruct (py_min_cases 1 b) as [[? ->]|[? ->]]; lra.
Qed.

Lemma truediv_ok a b : ~ b == 0 -> truediv a b = Ok (a / b).
Proof.
  intro H. unfold truediv.
  destruct (Qeq_bool b 0) eqn:E; [|reflexivity].
  apply Qeq_bool_iff in E. contradiction.
Qed.

Lemma truediv_zero a b : b == 0 -> truediv a b = Raise ZeroDivisionError.
Proof.
  intro H. unfold truediv. apply Qeq_bool_iff in H. now rewrite H.
Qed.

Lemma Qhalf x : x / 2 == x * (1 # 2).
Proof. field. Qed.

Lemma Qdiv_nonneg a b : 0 <= a -> 0 < b -> 0 <= a / b.
Proof.
  intros Ha Hb. apply Qle_shift_div_l; [exact Hb | lra].
Qed.

Lemma Qdiv_le_mono a b c : 0 < c -> a <= b -> a / c <= b / c.
Proof.
  intros Hc Hab. unfold Qdiv.
  apply Qmult_le_compat_r; [exact Hab|].
  apply Qinv_le_0_compat. lra.
Qed.

Lemma inject_Z_pos z : (0 < z)%Z -> 0 < inject_Z z.
Proof. intro H. change 0 with (inject_Z 0). now rewrite <- Zlt_Qlt. Qed.

Lemma inject_Z_nonneg z : (0 <= z)%Z -> 0 <= inject_Z z.
Proof. intro H. change 0 with (inject_Z 0). now rewrite <- Zle_Qle. Qed.

(** ** The scorer *)

(** The scorer reads two fields of the object only. *)
Lemma calculate_congestion_ext s1 s2 rtt cwnd :
  max_cwnd s1 = max_cwnd s2 ->
  congestion_threshold_rtt s1 = congestion_threshold_rtt s2 ->
  calculate_congestion s1 rtt cwnd = calculate_congestion s2 rtt cwnd.
Proof.
  intros Hm Ht. unfold calculate_congestion. now rewrite Hm, Ht.
Qed.

(** The shape of the result when both readings are there and the RTT
    threshold is not zero: the guard on [max_cwnd] keeps the second
    division from raising. *)
Lemma calculate_congestion_some self r c :
  ~ congestion_threshold_rtt self == 0 ->
  calculate_congestion self (Some r) (Some c) =
  Ok (Some ((py_min 1 (r / congestion_threshold_rtt self)
             + (if (0 <? max_cwnd self)%Z
                then 1 - py_min 1 (inject_Z c / inject_Z (max_cwnd self))
                else 0)) / 2)).
Proof.
  intro Ht. unfold calculate_congestion.
  rewrite (truediv_ok _ _ Ht). cbn [result_bind].
  destruct (0 <? max_cwnd self)%Z eqn:E; [|reflexivity].
  apply Z.ltb_lt in E.
  rewrite truediv_ok; [reflexivity|].
  pose proof (inject_Z_pos _ E). lra.
Qed.

(** With a zero RTT threshold and both readings there, the first division
    raises. *)
Lemma calculate_congestion_raises self r c :
  congestion_threshold_rtt self == 0 ->
  calculate_congestion self (Some r) (Some c) = Raise ZeroDivisionError.
Proof.
  intro Ht. unfold calculate_congestion. now rewrite (truediv_zero _ _ Ht).
Qed.

Lemma calculate_congestion_none_iff self rtt cwnd :
  calculate_congestion self rtt cwnd = Ok None <-> rtt = None \/ cwnd = None.
Proof.
  split.
  - destruct rtt as [r|]; [|now left].
    destruct cwnd as [c|]; [|now right].
    unfold calculate_congestion.
    destruct (truediv r (congestion_threshold_rtt self)); cbn [result_bind];
      [|discriminate].
    destruct (0 <? max_cwnd self)%Z; cbn [result_bind]; [|discriminate].
    destruct (truediv (inject_Z c) (inject_Z (max_cwnd self)));
      cbn [result_bind]; discriminate.
  - intros [-> | ->]; [reflexivity|].
    destruct rtt; reflexivity.
Qed.

(** The scorer never raises when the RTT threshold is not zero. *)
Lemma calculate_congestion_total self rtt cwnd :
  ~ congestion_threshold_rtt self == 0 ->
  exists q, calculate_congestion self rtt cwnd = Ok q.
Proof.
  intro Ht. destruct rtt as [r|], cwnd as [c|];
    try (exists None; reflexivity).
  rewrite calculate_congestion_some by exact Ht. eexists; reflexivity.
Qed.

Lemma calculate_congestion_spec_score self r c :
  ~ congestion_threshold_rtt self == 0 ->
  exists score,
    calculate_congestion self (Some r) (Some c) = Ok (Some score)
    /\ score == spec_score r c (max_cwnd self) (congestion_threshold_rtt self).
Proof.
  intro Ht. rewrite calculate_congestion_some by exact Ht.
  eexists; split; [reflexivity|].
  unfold spec_score, spec_norm_rtt, spec_norm_window.
  rewrite py_min_Qmin.
  destruct (0 <? max_cwnd self)%Z; [|reflexivity].
  rewrite py_min_Qmin. reflexivity.
Qed.

(** C1.  With a non-negative RTT, a non-negative window, a positive
    largest window seen and a positive RTT threshold, the scorer returns
    a score, and the score lies in the closed interval from 0 to 1. *)
Theorem calculate_congestion_range self rtt cwnd :
  0 <= rtt -> (0 <= cwnd)%Z -> (0 < max_cwnd self)%Z ->
  0 < congestion_threshold_rtt self ->
  exists score,
    calculate_congestion self (Some rtt) (Some cwnd) = Ok (Some score)
    /\ 0 <= score /\ score <= 1.
Proof.
  intros Hr Hc Hm Ht.
  rewrite calculate_congestion_some by lra.
  eexists; split; [reflexivity|].
  apply Z.ltb_lt in Hm as Hm'. rewrite Hm'.
  pose proof (Qdiv_nonneg _ _ Hr Ht) as H1.
  pose proof (Qdiv_nonneg _ _ (inject_Z_nonneg _ Hc) (inject_Z_pos _ Hm)) as H2.
  generalize dependent (rtt / congestion_threshold_rtt self).
  generalize dependent (inject_Z cwnd / inject_Z (max_cwnd self)).
  intros w Hw q Hq.
  destruct (py_min_cases 1 q) as [[? ->]|[? ->]];
  destruct (py_min_cases 1 w) as [[? ->]|[? ->]]; split; rewrite Qhalf; lra.
Qed.

(** C1 at the second scenario of the specification: window 100 of 1000,
    RTT 150 ms against a threshold of 100 ms. *)
Lemma calculate_congestion_range_witness :
  exists score,
    calculate_congestion viz_default (Some 150) (Some 100%Z) = Ok (Some score)
    /\ 0 <= score /\ score <= 1.
Proof.
  apply (calculate_congestion_range viz_default 150 100%Z).
  - discriminate.
  - discriminate.
  - reflexivity.
  - reflexivity.
Defined.

(** C4.  The scorer returns [None] exactly when the RTT or the window is
    absent.  When both are present (and the RTT threshold is not zero, so
    that the quotient exists) it returns the score of the specification:
    the mean of min(1, rtt/threshold) and of the window term, which is
    1 - min(1, window/max) for a positive max and 0 otherwise.  With RTT
    150, window 100, max 1000 and threshold 100 the score is 0.95. *)
Theorem calculate_congestion_spec self rtt cwnd :
  (calculate_congestion self rtt cwnd = Ok None <-> rtt = None \/ cwnd = None)
  /\ (forall r c,
        rtt = Some r -> cwnd = Some c ->
        ~ congestion_threshold_rtt self == 0 ->
        exists score,
          calculate_congestion self rtt cwnd = Ok (Some score)
          /\ score == spec_score r c (max_cwnd self)
                        (congestion_threshold_rtt self))
  /\ (max_cwnd self = 1000%Z -> congestion_threshold_rtt self == 100 ->
      exists score,
        calculate_congestion self (Some 150) (Some 100%Z) = Ok (Some score)
        /\ score == 95 # 100).
Proof.
  split; [apply calculate_congestion_none_iff|]. split.
  - intros r c -> -> Ht. now apply calculate_congestion_spec_score.
  - intros Hm Ht.
    destruct (calculate_congestion_spec_score self 150 100%Z)
      as (score & E & Hs); [rewrite Ht; discriminate|].
    exists score. split; [exact E|].
    rewrite Hs, Hm. unfold spec_score, spec_norm_rtt, spec_norm_window.
    rewrite Ht. reflexivity.
Qed.

(** The two scored scenarios of the specification, by evaluation. *)
Example scenario_half :
  calculate_congestion viz_default (Some 50) (Some 500%Z)
  = Ok (Some (100000 # 200000)).
Proof. reflexivity. Qed.

Example scenario_congested :
  calculate_congestion viz_default (Some 150) (Some 100%Z)
  = Ok (Some (1900 # 2000)).
Proof. reflexivity. Qed.

(** C10.  With a positive RTT threshold and a positive largest window
    seen, the score does not go down when the RTT goes up or the window
    goes down: it is non-decreasing in the RTT and non-increasing in the
    window. *)
Theorem calculate_congestion_monotone self r1 r2 c1 c2 :
  0 < congestion_threshold_rtt self -> (0 < max_cwnd self)%Z ->
  r1 <= r2 -> (c2 <= c1)%Z ->
  exists q1 q2,
    calculate_congestion self (Some r1) (Some c1) = Ok (Some q1)
    /\ calculate_congestion self (Some r2) (Some c2) = Ok (Some q2)
    /\ q1 <= q2.
Proof.
  intros Ht Hm Hr Hc.
  rewrite !calculate_congestion_some by lra.
  do 2 eexists. split; [reflexivity|]. split; [reflexivity|].
  apply Z.ltb_lt in Hm as Hm'. rewrite Hm'.
  pose proof (py_min_mono _ _ (Qdiv_le_mono _ _ _ Ht Hr)) as H1.
  assert (inject_Z c2 <= inject_Z c1) as Hc' by now rewrite <- Zle_Qle.
  pose proof (py_min_mono _ _ (Qdiv_le_mono _ _ _ (inject_Z_pos _ Hm) Hc'))
    as H2.
  rewrite !Qhalf.
  generalize dependent (py_min 1 (r1 / congestion_threshold_rtt self)).
  generalize dependent (py_min 1 (r2 / congestion_threshold_rtt self)).
  generalize dependent (py_min 1 (inject_Z c1 / inject_Z (max_cwnd self))).
  generalize dependent (py_min 1 (inject_Z c2 / inject_Z (max_cwnd self))).
  intros. lra.
Qed.

(** C10 between the two scenarios: RTT 50 to 150, window 500 to 100. *)
Lemma calculate_congestion_monotone_witness :
  exists q1 q2,
    calculate_congestion viz_default (Some 50) (Some 500%Z) = Ok (Some q1)
    /\ calculate_congestion viz_default (Some 150) (Some 100%Z) = Ok (Some q2)
    /\ q1 <= q2.
Proof.
  apply (calculate_congestion_monotone viz_default 50 150 500%Z 100%Z).
  - reflexivity.
  - reflexivity.
  - discriminate.
  - discriminate.
Defined.

(** ** The callback, block by block *)

Lemma update_throughput_run ct s :
  update_throughput ct s = (Ok tt, after_throughput ct s).
Proof.
  unfold update_throughput, after_throughput, bind, get, modify, ret, lift,
    append_throughput.
  cbn. destruct (Qltb 0 (ct - last_throughput_time s)) eqn:E; [|reflexivity].
  apply Qltb_lt in E. rewrite truediv_ok by lra. reflexivity.
Qed.

Lemma update_cwnd_run s : update_cwnd s = (Ok tt, after_cwnd s).
Proof.
  unfold update_cwnd, after_cwnd, bind, get, modify, ret, append_cwnd.
  cbn. destruct (latest_cwnd s) as [c|]; [|reflexivity].
  cbn. destruct (max_cwnd s <? c)%Z; reflexivity.
Qed.

Lemma update_rtt_run s : update_rtt s = (Ok tt, after_rtt s).
Proof.
  unfold update_rtt, after_rtt, bind, get, append_rtt, modify.
  destruct (latest_rtt s); reflexivity.
Qed.

Lemma update_congestion_run ct s :
  snd (update_congestion ct s) = after_congestion ct s.
Proof.
  unfold update_congestion, after_congestion, bind, get, lift, modify, ret,
    append_congestion, append_event.
  destruct (calculate_congestion s (latest_rtt s) (latest_cwnd s)) as [[c|]|];
    try reflexivity.
  cbn. destruct (Qltb (7 # 10) c); reflexivity.
Qed.

(** The callback raises only when the scorer does. *)
Lemma update_congestion_outcome ct s e :
  fst (update_congestion ct s) = Raise e ->
  calculate_congestion s (latest_rtt s) (latest_cwnd s) = Raise e.
Proof.
  unfold update_congestion, bind, get, lift, modify, ret,
    append_congestion, append_event.
  destruct (calculate_congestion s (latest_rtt s) (latest_cwnd s)) as [[c|]|];
    cbn; try discriminate.
  - destruct (Qltb (7 # 10) c); discriminate.
  - congruence.
Qed.

Lemma update_plot_unfold clock s :
  update_plot clock s =
  let ct := clock - start_time s in
  update_congestion ct
    (after_rtt (after_cwnd (after_time ct (after_throughput ct s)))).
Proof.
  unfold update_plot. unfold bind at 1. unfold get at 1.
  unfold bind at 1. rewrite update_throughput_run.
  unfold bind at 1. unfold append_time, modify.
  unfold bind at 1. rewrite update_cwnd_run.
  unfold bind at 1. rewrite update_rtt_run.
  reflexivity.
Qed.

Lemma tick_unfold clock s :
  tick clock s =
  let ct := clock - start_time s in
  after_congestion ct
    (after_rtt (after_cwnd (after_time ct (after_throughput ct s)))).
Proof.
  unfold tick. rewrite update_plot_unfold. cbv zeta.
  apply update_congestion_run.
Qed.

(** Case analysis along the branches of the callback. *)
Ltac tick_cases :=
  rewrite ?tick_unfold; cbv zeta;
  unfold after_congestion, after_rtt, after_cwnd, after_time, after_throughput;
  repeat (match goal with
  | |- context [if Qltb ?a ?b then _ else _] => destruct (Qltb a b) eqn:?
  | |- context [match latest_cwnd ?s with _ => _ end] =>
      destruct (latest_cwnd s) eqn:?
  | |- context [if (?a <? ?b)%Z then _ else _] => destruct (a <? b)%Z eqn:?
  | |- context [match calculate_congestion ?s ?r ?c with _ => _ end] =>
      destruct (calculate_congestion s r c) as [[?|]|] eqn:?
  end; cbn).

(** *** What one callback does to each field *)

Lemma tick_latest_cwnd clock s : latest_cwnd (tick clock s) = latest_cwnd s.
Proof. tick_cases; congruence. Qed.

Lemma tick_latest_rtt clock s : latest_rtt (tick clock s) = latest_rtt s.
Proof. tick_cases; congruence. Qed.

Lemma tick_start_time clock s : start_time (tick clock s) = start_time s.
Proof. tick_cases; congruence. Qed.

Lemma tick_history_length clock s :
  history_length (tick clock s) = history_length s.
Proof. tick_cases; congruence. Qed.

Lemma tick_threshold_rtt clock s :
  congestion_threshold_rtt (tick clock s) = congestion_threshold_rtt s.
Proof. tick_cases; congruence. Qed.

Lemma tick_threshold_cwnd clock s :
  congestion_threshold_cwnd (tick clock s) = congestion_threshold_cwnd s.
Proof. tick_cases; congruence. Qed.

Lemma tick_packet_count clock s : packet_count (tick clock s) = 0%Z.
Proof. tick_cases; congruence. Qed.

Lemma tick_time_values clock s :
  time_values (tick clock s) =
  deque_append (time_values s) (clock - start_time s).
Proof. tick_cases; congruence. Qed.

Lemma tick_cwnd_values clock s :
  cwnd_values (tick clock s) = deque_append (cwnd_values s) (latest_cwnd s).
Proof. tick_cases; congruence. Qed.

Lemma tick_rtt_values clock s :
  rtt_values (tick clock s) = deque_append (rtt_values s) (latest_rtt s).
Proof. tick_cases; congruence. Qed.

Lemma tick_max_cwnd clock s :
  max_cwnd (tick clock s) =
  match latest_cwnd s with
  | Some c => if (max_cwnd s <? c)%Z then c else max_cwnd s
  | None => max_cwnd s
  end.
Proof. tick_cases; congruence. Qed.

Lemma tick_throughput_values clock s :
  throughput_values (tick clock s) =
  if Qltb 0 (time_elapsed clock s)
  then deque_append (throughput_values s)
         (inject_Z (packet_count s) / time_elapsed clock s)
  else throughput_values s.
Proof. unfold time_elapsed. tick_cases; congruence. Qed.

Lemma tick_last_throughput_time clock s :
  last_throughput_time (tick clock s) =
  if Qltb 0 (time_elapsed clock s)
  then clock - start_time s
  else last_throughput_time s.
Proof. unfold time_elapsed. tick_cases; congruence. Qed.

Lemma after_congestion_scorer ct s rtt cwnd :
  calculate_congestion (after_congestion ct s) rtt cwnd =
  calculate_congestion s rtt cwnd.
Proof.
  apply calculate_congestion_ext; unfold after_congestion;
    destruct (calculate_congestion s (latest_rtt s) (latest_cwnd s))
      as [[c|]|]; try reflexivity;
    destruct (Qltb (7 # 10) c); reflexivity.
Qed.

(** The score buffer and the event list, by the outcome of the scorer. *)
Lemma tick_congestion clock s :
  match tick_score clock s with
  | Ok q =>
      congestion_values (tick clock s) =
        deque_append (congestion_values s) q
      /\ congestion_events (tick clock s) =
           if match q with Some c => Qltb (7 # 10) c | None => false end
           then congestion_events s ++ [clock - start_time s]
           else congestion_events s
  | Raise _ =>
      congestion_values (tick clock s) = congestion_values s
      /\ congestion_events (tick clock s) = congestion_events s
  end.
Proof.
  unfold tick_score. rewrite tick_unfold. cbv zeta.
  set (ct := clock - start_time s).
  set (pre := after_rtt (after_cwnd (after_time ct (after_throughput ct s)))).
  rewrite after_congestion_scorer.
  assert (latest_rtt pre = latest_rtt s) as Hr
    by (subst pre; tick_cases; reflexivity).
  assert (latest_cwnd pre = latest_cwnd s) as Hc
    by (subst pre; tick_cases; congruence).
  assert (congestion_values pre = congestion_values s) as Hv
    by (subst pre; tick_cases; reflexivity).
  assert (congestion_events pre = congestion_events s) as He
    by (subst pre; tick_cases; reflexivity).
  clearbody pre. unfold after_congestion. rewrite Hr, Hc.
  destruct (calculate_congestion pre (latest_rtt s) (latest_cwnd s))
    as [[c|]|].
  - destruct (Qltb (7 # 10) c); cbn; rewrite Hv, ?He; split; reflexivity.
  - cbn. rewrite Hv, He. split; reflexivity.
  - split; assumption.
Qed.

(** An exception of the block under the lock is the exception of its
    scorer call. *)
Lemma update_plot_raises clock s e :
  fst (update_plot clock s) = Raise e -> tick_score clock s = Raise e.
Proof.
  rewrite update_plot_unfold. cbv zeta. intro H.
  apply update_congestion_outcome in H.
  unfold tick_score. rewrite tick_unfold. cbv zeta.
  rewrite after_congestion_scorer.
  set (ct := clock - start_time s) in *.
  set (pre := after_rtt (after_cwnd (after_time ct (after_throughput ct s))))
    in *.
  assert (latest_rtt pre = latest_rtt s) as Hr
    by (subst pre; tick_cases; reflexivity).
  assert (latest_cwnd pre = latest_cwnd s) as Hc
    by (subst pre; tick_cases; congruence).
  now rewrite <- Hr, <- Hc.
Qed.

(** ** The buffers *)

Lemma deque_append_maxlen {A} (d : deque A) x :
  maxlen (deque_append d x) = maxlen d.
Proof. reflexivity. Qed.

Lemma deque_append_len {A} (d : deque A) x :
  (deque_len d <= maxlen d)%nat ->
  deque_len (deque_append d x) = Nat.min (S (deque_len d)) (maxlen d).
Proof.
  unfold deque_len, deque_append. cbn [items maxlen]. intro H.
  assert (length (items d ++ [x]) = S (length (items d))) as L
    by (rewrite length_app; cbn [length]; lia).
  rewrite L.
  destruct (maxlen d <? S (length (items d)))%nat eqn:E.
  - apply Nat.ltb_lt in E.
    destruct (items d ++ [x]) as [|a l]; cbn [length tl] in L |- *;
      [discriminate|].
    injection L as L. lia.
  - apply Nat.ltb_ge in E. rewrite L. lia.
Qed.

Lemma deque_append_fifo {A} (d : deque A) x :
  fifo_append d (deque_append d x) x.
Proof.
  unfold fifo_append, deque_append, deque_len. cbn [items maxlen].
  split; [reflexivity|].
  assert (length (items d ++ [x]) = S (length (items d))) as L
    by (rewrite length_app; cbn [length]; lia).
  rewrite L. split.
  - intro H. assert ((maxlen d <? S (length (items d)))%nat = false) as ->
      by (apply Nat.ltb_ge; lia). reflexivity.
  - intros H Hpos.
    assert ((maxlen d <? S (length (items d)))%nat = true) as ->
      by (apply Nat.ltb_lt; lia).
    destruct (items d) as [|a l] eqn:E; [cbn in H; lia|].
    exists a, l. split; reflexivity.
Qed.

Lemma app_one_neq {A} (l : list A) x : l ++ [x] <> l.
Proof.
  intro H. apply (f_equal (@length A)) in H.
  rewrite length_app in H. cbn in H. lia.
Qed.

(** C3, as the code has it.  The threshold of the event test is the
    constant 0.7, whatever [congestion_threshold_cwnd] was configured: a
    callback appends its time to the event list if and only if its score
    is defined and strictly greater than 0.7, and otherwise leaves the
    list as it was. *)
Theorem congestion_event_iff clock s :
  (event_appended clock s <->
   exists c, tick_score clock s = Ok (Some c) /\ 7 # 10 < c)
  /\ (~ event_appended clock s ->
      congestion_events (tick clock s) = congestion_events s).
Proof.
  unfold event_appended.
  pose proof (tick_congestion clock s) as H.
  destruct (tick_score clock s) as [[c|]|e].
  - destruct H as [_ ->]. destruct (Qltb (7 # 10) c) eqn:E.
    + apply Qltb_lt in E. split.
      * split; [intros _; exists c; now split | reflexivity].
      * intro N. now contradiction N.
    + apply Qltb_ge in E. split; [|reflexivity].
      split.
      * intro H. symmetry in H. now apply app_one_neq in H.
      * intros (c' & Hc & Hlt). injection Hc as <-. lra.
  - destruct H as [_ ->]. split; [|reflexivity]. split.
    + intro H. symmetry in H. now apply app_one_neq in H.
    + intros (c' & Hc & _). discriminate.
  - destruct H as [_ ->]. split; [|reflexivity]. split.
    + intro H. symmetry in H. now apply app_one_neq in H.
    + intros (c' & Hc & _). discriminate.
Qed.

(** C3 as written fails: with [--cwnd-threshold 0.9], a window of 100 of
    1000 and an RTT of 80 ms, the score is 0.85, below the configured
    threshold, and the callback records an event all the same. *)
Lemma configured_threshold_not_consulted :
  ~ claimed_configured_event_threshold.
Proof.
  intro H. specialize (H (1 # 2) viz_strict).
  assert (event_appended (1 # 2) viz_strict) as Ev by reflexivity.
  apply H in Ev; [| reflexivity | discriminate].
  destruct Ev as (c & Hc & Hlt).
  assert (tick_score (1 # 2) viz_strict = Ok (Some (170000 # 200000))) as E
    by reflexivity.
  rewrite E in Hc. injection Hc as <-.
  revert Hlt. cbn. unfold Qlt. cbn. lia.
Qed.

Example strict_tick_records_event :
  congestion_events (tick (1 # 2) viz_strict) = [1 # 2]
  /\ tick_score (1 # 2) viz_strict = Ok (Some (170000 # 200000))
  /\ 170000 # 200000 <= congestion_threshold_cwnd viz_strict.
Proof. split; [reflexivity|]. split; [reflexivity|]. discriminate. Qed.

(** C6.  When the elapsed time found by a callback is not strictly
    positive, the throughput block divides nothing and appends nothing:
    the throughput buffer and [last_throughput_time] stay as they were.
    The block never raises, at any elapsed time: its division is reached
    only with a positive divisor. *)
Theorem nonpositive_elapsed_skips_throughput clock s :
  time_elapsed clock s <= 0 ->
  throughput_values (tick clock s) = throughput_values s
  /\ last_throughput_time (tick clock s) = last_throughput_time s
  /\ (forall ct s', fst (update_throughput ct s') = Ok tt).
Proof.
  intro H. apply Qltb_ge in H.
  rewrite tick_throughput_values, tick_last_throughput_time, H.
  split; [reflexivity|]. split; [reflexivity|].
  intros ct s'. now rewrite update_throughput_run.
Qed.

Lemma nonpositive_elapsed_skips_throughput_witness :
  time_elapsed 0 viz_250 <= 0
  /\ throughput_values (tick 0 viz_250) = throughput_values viz_250
  /\ last_throughput_time (tick 0 viz_250) = last_throughput_time viz_250
  /\ (forall ct s', fst (update_throughput ct s') = Ok tt).
Proof.
  split; [discriminate|].
  apply (nonpositive_elapsed_skips_throughput 0 viz_250). discriminate.
Defined.

(** The throughput block on the other side of its test: when the local
    [time_elapsed] is strictly positive and [n] packets were counted, the
    callback appends [n / time_elapsed], resets [packet_count] and moves
    [last_throughput_time] to the current time. *)
Lemma positive_elapsed_appends_throughput clock s :
  0 < time_elapsed clock s ->
  throughput_values (tick clock s) =
    deque_append (throughput_values s)
      (inject_Z (packet_count s) / time_elapsed clock s)
  /\ packet_count (tick clock s) = 0%Z
  /\ last_throughput_time (tick clock s) = clock - start_time s
  /\ (packet_count s = 250%Z -> time_elapsed clock s == 1 # 2 ->
      inject_Z (packet_count s) / time_elapsed clock s == 500).
Proof.
  intro H. apply Qltb_lt in H.
  rewrite tick_throughput_values, tick_last_throughput_time, H.
  split; [reflexivity|]. split; [apply tick_packet_count|].
  split; [reflexivity|].
  intros -> ->. reflexivity.
Qed.

Lemma positive_elapsed_appends_throughput_witness :
  0 < time_elapsed (1 # 2) viz_250
  /\ throughput_values (tick (1 # 2) viz_250) =
       deque_append (throughput_values viz_250)
         (inject_Z (packet_count viz_250) / time_elapsed (1 # 2) viz_250)
  /\ packet_count (tick (1 # 2) viz_250) = 0%Z
  /\ last_throughput_time (tick (1 # 2) viz_250) = (1 # 2) - start_time viz_250
  /\ (packet_count viz_250 = 250%Z -> time_elapsed (1 # 2) viz_250 == 1 # 2 ->
      inject_Z (packet_count viz_250) / time_elapsed (1 # 2) viz_250 == 500).
Proof.
  split; [reflexivity|].
  apply (positive_elapsed_appends_throughput (1 # 2) viz_250). reflexivity.
Defined.

Example scenario_throughput :
  packet_count viz_250 = 250%Z
  /\ items (throughput_values (tick (1 # 2) viz_250)) = [0; 500 # 1].
Proof. split; vm_compute; reflexivity. Qed.

(** ** The packet loop *)

Section Runs.

Variable py_int : string -> option Z.
Variable py_float : string -> option Q.

#[local] Abbreviation ingest := (ingest py_int py_float).
#[local] Abbreviation process_packet := (process_packet py_int py_float).
#[local] Abbreviation capture_packets := (capture_packets py_int py_float).
#[local] Abbreviation step := (step py_int py_float).
#[local] Abbreviation run := (run py_int py_float).
#[local] Abbreviation all_elapsed_positive := (all_elapsed_positive py_int py_float).

(** Case analysis along the paths of one iteration. *)
Ltac ingest_cases p :=
  unfold ingest, process_packet, try_except,
    packet_body, bind, get_tcp, parse, modify, ret, lift;
  destruct (tcp p) as [l|]; cbn;
  [ destruct (window_size_value l) as [x|]; cbn;
    [ destruct (py_int x) as [v|]; cbn |];
    (destruct (analysis_ack_rtt l) as [y|]; cbn;
     [ destruct (py_float y) as [f|]; cbn |])
  | ].

Lemma process_packet_ok p s : fst (process_packet p s) = Ok tt.
Proof. ingest_cases p; reflexivity. Qed.

Lemma ingest_packet_count p s :
  packet_count (ingest p s) = (packet_count s + 1)%Z.
Proof. ingest_cases p; reflexivity. Qed.

Lemma ingest_max_cwnd p s : max_cwnd (ingest p s) = max_cwnd s.
Proof. ingest_cases p; reflexivity. Qed.

Lemma ingest_history_length p s :
  history_length (ingest p s) = history_length s.
Proof. ingest_cases p; reflexivity. Qed.

Lemma ingest_threshold_rtt p s :
  congestion_threshold_rtt (ingest p s) = congestion_threshold_rtt s.
Proof. ingest_cases p; reflexivity. Qed.

Lemma ingest_buffers p s :
  time_values (ingest p s) = time_values s
  /\ cwnd_values (ingest p s) = cwnd_values s
  /\ rtt_values (ingest p s) = rtt_values s
  /\ throughput_values (ingest p s) = throughput_values s
  /\ congestion_values (ingest p s) = congestion_values s
  /\ congestion_events (ingest p s) = congestion_events s.
Proof. ingest_cases p; repeat split; reflexivity. Qed.

Lemma ingest_latest_cwnd p s :
  latest_cwnd (ingest p s) =
  match tcp p with
  | Some l =>
      match window_size_value l with
      | Some x =>
          match py_int x with
          | Some v => Some v
          | None => latest_cwnd s
          end
      | None => latest_cwnd s
      end
  | None => latest_cwnd s
  end.
Proof. ingest_cases p; reflexivity. Qed.

(** The RTT is reached only past the window field: a window text that
    [int] rejects ends the iteration before the RTT is looked at. *)
Lemma ingest_latest_rtt p s :
  latest_rtt (ingest p s) =
  match tcp p with
  | Some l =>
      match window_size_value l, analysis_ack_rtt l with
      | Some x, Some y =>
          match py_int x, py_float y with
          | Some _, Some f => Some (f * 1000)
          | _, _ => latest_rtt s
          end
      | None, Some y =>
          match py_float y with
          | Some f => Some (f * 1000)
          | None => latest_rtt s
          end
      | _, None => latest_rtt s
      end
  | None => latest_rtt s
  end.
Proof. ingest_cases p; reflexivity. Qed.

Lemma capture_packets_count ps : forall s,
  packet_count (capture_packets ps s) =
  (packet_count s + Z.of_nat (length ps))%Z.
Proof.
  induction ps as [|p ps IH]; intro s.
  - cbn. lia.
  - cbn [fold_left length]; unfold capture_packets; cbn [fold_left].
    unfold capture_packets in IH. rewrite IH.
    rewrite ingest_packet_count. lia.
Qed.

(** C8.  For every packet the loop adds exactly 1 to [packet_count],
    on every path.  The latest window changes only to the integer read
    from a window field that is present and parses, and the latest RTT
    only to 1000 times the number read from an RTT field that is
    present and parses.  It does set them: a window field that is
    present and parses is stored, and so is, in milliseconds, an RTT
    field that is present and parses, once the window field of the same
    packet is absent or has parsed.  A missing layer, a missing field or
    a text the parser rejects leaves the stored value as it was.  No
    exception leaves the iteration, and the loop goes on with the next
    packet. *)
Theorem ingest_spec p s :
  packet_count (ingest p s) = (packet_count s + 1)%Z
  /\ (latest_cwnd (ingest p s) = latest_cwnd s
      \/ exists l x v,
           tcp p = Some l /\ window_size_value l = Some x
           /\ py_int x = Some v /\ latest_cwnd (ingest p s) = Some v)
  /\ (latest_rtt (ingest p s) = latest_rtt s
      \/ exists l y f,
           tcp p = Some l /\ analysis_ack_rtt l = Some y
           /\ py_float y = Some f
           /\ latest_rtt (ingest p s) = Some (f * 1000))
  /\ (forall l x v,
        tcp p = Some l -> window_size_value l = Some x ->
        py_int x = Some v -> latest_cwnd (ingest p s) = Some v)
  /\ (forall l y f,
        tcp p = Some l -> analysis_ack_rtt l = Some y ->
        py_float y = Some f ->
        (window_size_value l = None
         \/ exists x v, window_size_value l = Some x /\ py_int x = Some v) ->
        latest_rtt (ingest p s) = Some (f * 1000))
  /\ (tcp p = None ->
      latest_cwnd (ingest p s) = latest_cwnd s
      /\ latest_rtt (ingest p s) = latest_rtt s)
  /\ (forall l,
        tcp p = Some l ->
        (window_size_value l = None
         \/ exists x, window_size_value l = Some x /\ py_int x = None) ->
        latest_cwnd (ingest p s) = latest_cwnd s)
  /\ (forall l,
        tcp p = Some l ->
        (analysis_ack_rtt l = None
         \/ exists y, analysis_ack_rtt l = Some y /\ py_float y = None) ->
        latest_rtt (ingest p s) = latest_rtt s)
  /\ fst (process_packet p s) = Ok tt
  /\ (forall ps,
        capture_packets (p :: ps) s = capture_packets ps (ingest p s))
  /\ (forall ps,
        packet_count (capture_packets (p :: ps) s) =
        (packet_count s + 1 + Z.of_nat (length ps))%Z).
Proof.
  split; [apply ingest_packet_count|].
  rewrite ingest_latest_cwnd, ingest_latest_rtt.
  split; [|split; [|split; [|split; [|split; [|split; [|split]]]]]].
  - destruct (tcp p) as [l|]; [|now left].
    destruct (window_size_value l) as [x|] eqn:Ex; [|now left].
    destruct (py_int x) as [v|] eqn:Ev; [|now left].
    right. exists l, x, v. auto.
  - destruct (tcp p) as [l|]; [|now left].
    destruct (analysis_ack_rtt l) as [y|] eqn:Ey;
      [|destruct (window_size_value l); now left].
    destruct (py_float y) as [f|] eqn:Ef.
    + destruct (window_size_value l) as [x|].
      * destruct (py_int x); [|now left].
        right. exists l, y, f. auto.
      * right. exists l, y, f. auto.
    + destruct (window_size_value l) as [x|]; [|now left].
      destruct (py_int x); now left.
  - intros l x v -> -> ->. reflexivity.
  - intros l y f -> -> -> [-> | (x & v & -> & ->)]; reflexivity.
  - intros ->. split; reflexivity.
  - intros l -> [-> | (x & -> & ->)]; reflexivity.
  - intros l -> [-> | (y & -> & ->)].
    + destruct (window_size_value l); reflexivity.
    + destruct (window_size_value l) as [x|]; [|reflexivity].
      destruct (py_int x); reflexivity.
  - split; [apply process_packet_ok|]. split.
    + intro ps. reflexivity.
    + intro ps. rewrite capture_packets_count.
      cbn [length]. lia.
Qed.

(** ** Runs of callbacks and packets *)

Lemma tick_max_cwnd_le clock s : (max_cwnd s <= max_cwnd (tick clock s))%Z.
Proof.
  rewrite tick_max_cwnd. destruct (latest_cwnd s) as [c|]; [|lia].
  destruct (max_cwnd s <? c)%Z eqn:E; [|lia].
  apply Z.ltb_lt in E. lia.
Qed.

Lemma step_max_cwnd_le e s : (max_cwnd s <= max_cwnd (step e s))%Z.
Proof.
  destruct e as [clock|p]; cbn.
  - apply tick_max_cwnd_le.
  - rewrite ingest_max_cwnd. lia.
Qed.

Lemma run_max_cwnd_le es : forall s, (max_cwnd s <= max_cwnd (run es s))%Z.
Proof.
  induction es as [|e es IH]; intro s; cbn.
  - lia.
  - unfold run in IH. specialize (IH (step e s)).
    pose proof (step_max_cwnd_le e s). lia.
Qed.

(** C5.  [max_cwnd] never goes down along a run of callbacks and packets,
    in any interleaving.  A callback changes it only when the latest
    window is present and strictly greater than the stored maximum, and
    then to that window; packets do not touch it. *)
Theorem max_cwnd_non_decreasing es s clock p :
  (max_cwnd s <= max_cwnd (run es s))%Z
  /\ (max_cwnd (tick clock s) = max_cwnd s
      \/ exists c, latest_cwnd s = Some c /\ (max_cwnd s < c)%Z
                   /\ max_cwnd (tick clock s) = c)
  /\ (forall c, latest_cwnd s = Some c -> (max_cwnd s < c)%Z ->
                max_cwnd (tick clock s) = c)
  /\ (forall c, latest_cwnd s = Some c -> (c <= max_cwnd s)%Z ->
                max_cwnd (tick clock s) = max_cwnd s)
  /\ (latest_cwnd s = None -> max_cwnd (tick clock s) = max_cwnd s)
  /\ max_cwnd (ingest p s) = max_cwnd s.
Proof.
  split; [apply run_max_cwnd_le|].
  rewrite tick_max_cwnd.
  split; [|split; [|split; [|split]]].
  - destruct (latest_cwnd s) as [c|]; [|now left].
    destruct (max_cwnd s <? c)%Z eqn:E; [|now left].
    apply Z.ltb_lt in E. right. exists c. auto.
  - intros c -> H. apply Z.ltb_lt in H. now rewrite H.
  - intros c -> H. apply Z.ltb_ge in H. now rewrite H.
  - intros ->. reflexivity.
  - apply ingest_max_cwnd.
Qed.

Lemma ticks_snoc clocks clock s :
  ticks (clocks ++ [clock]) s = tick clock (ticks clocks s).
Proof. unfold ticks. now rewrite fold_left_app. Qed.

Lemma ticks_latest clocks : forall s,
  latest_cwnd (ticks clocks s) = latest_cwnd s
  /\ latest_rtt (ticks clocks s) = latest_rtt s.
Proof.
  induction clocks as [|c clocks IH]; intro s; cbn.
  - split; reflexivity.
  - unfold ticks in IH. destruct (IH (tick c s)) as [-> ->].
    split; [apply tick_latest_cwnd | apply tick_latest_rtt].
Qed.

(** C9.  A callback leaves the latest window and the latest RTT as it
    found them.  So along a quiet period, a run of callbacks with no
    packet in between, they stay what they were at its start, and every
    further callback appends those same two values to the window and RTT
    buffers. *)
Theorem tick_keeps_latest clocks clock s :
  latest_cwnd (tick clock s) = latest_cwnd s
  /\ latest_rtt (tick clock s) = latest_rtt s
  /\ latest_cwnd (ticks clocks s) = latest_cwnd s
  /\ latest_rtt (ticks clocks s) = latest_rtt s
  /\ cwnd_values (ticks (clocks ++ [clock]) s) =
       deque_append (cwnd_values (ticks clocks s)) (latest_cwnd s)
  /\ rtt_values (ticks (clocks ++ [clock]) s) =
       deque_append (rtt_values (ticks clocks s)) (latest_rtt s).
Proof.
  destruct (ticks_latest clocks s) as [Hc Hr].
  split; [apply tick_latest_cwnd|]. split; [apply tick_latest_rtt|].
  split; [exact Hc|]. split; [exact Hr|].
  rewrite ticks_snoc, tick_cwnd_values, tick_rtt_values, Hc, Hr.
  split; reflexivity.
Qed.

(** ** Alignment of the history buffers *)

Lemma fresh_capacities n thr thc c0 c1 :
  capacities_kept (fresh n thr thc c0 c1).
Proof. repeat split. Qed.

Lemma fresh_aligned n thr thc c0 c1 :
  aligned 0 (fresh n thr thc c0 c1)
  /\ deque_len (throughput_values (fresh n thr thc c0 c1))
     = filled 0 (fresh n thr thc c0 c1).
Proof.
  unfold aligned, filled. cbn [history_length fresh].
  destruct n as [|n]; repeat split.
Qed.

Lemma tick_capacities clock s :
  capacities_kept s -> capacities_kept (tick clock s).
Proof.
  unfold capacities_kept. intros (Ht & Hc & Hr & Hp & Hg).
  rewrite tick_history_length, tick_time_values, tick_cwnd_values,
    tick_rtt_values, tick_throughput_values.
  repeat split; try assumption.
  - destruct (Qltb 0 (time_elapsed clock s)); assumption.
  - pose proof (tick_congestion clock s) as H.
    destruct (tick_score clock s); destruct H as [-> _]; assumption.
Qed.

Lemma ingest_capacities p s :
  capacities_kept s -> capacities_kept (ingest p s).
Proof.
  unfold capacities_kept.
  destruct (ingest_buffers p s)
    as (-> & -> & -> & -> & -> & _).
  now rewrite ingest_history_length.
Qed.

Lemma filled_le k s : (filled k s <= history_length s)%nat.
Proof. unfold filled. lia. Qed.

Lemma filled_succ k s :
  Nat.min (S (filled k s)) (history_length s) = filled (S k) s.
Proof. unfold filled. lia. Qed.

Lemma tick_aligned clock k s :
  ~ congestion_threshold_rtt s == 0 ->
  capacities_kept s -> aligned k s -> aligned (S k) (tick clock s).
Proof.
  intros Hthr (Ht & Hc & Hr & _ & Hg) (Lt & Lc & Lr & Lg).
  pose proof (filled_le k s) as Hle.
  unfold aligned.
  assert (filled (S k) (tick clock s) = filled (S k) s) as ->
    by (unfold filled; now rewrite tick_history_length).
  rewrite tick_time_values, tick_cwnd_values, tick_rtt_values.
  rewrite !deque_append_len by lia.
  rewrite Ht, Hc, Hr, Lt, Lc, Lr, filled_succ.
  repeat split.
  pose proof (tick_congestion clock s) as H.
  destruct (calculate_congestion_total (tick clock s) (latest_rtt s)
              (latest_cwnd s)) as [q Hq];
    [now rewrite tick_threshold_rtt|].
  unfold tick_score in H. rewrite Hq in H. destruct H as [-> _].
  rewrite deque_append_len by lia.
  now rewrite Hg, Lg, filled_succ.
Qed.

Lemma tick_throughput_aligned clock k s :
  capacities_kept s ->
  deque_len (throughput_values s) = filled k s ->
  0 < time_elapsed clock s ->
  deque_len (throughput_values (tick clock s)) = filled (S k) (tick clock s).
Proof.
  intros (_ & _ & _ & Hp & _) L He.
  pose proof (filled_le k s) as Hle.
  assert (filled (S k) (tick clock s) = filled (S k) s) as ->
    by (unfold filled; now rewrite tick_history_length).
  apply Qltb_lt in He. rewrite tick_throughput_values, He.
  rewrite deque_append_len by lia.
  now rewrite Hp, L, filled_succ.
Qed.

Lemma ingest_aligned p k s : aligned k s -> aligned k (ingest p s).
Proof.
  unfold aligned, filled.
  destruct (ingest_buffers p s)
    as (-> & -> & -> & _ & -> & _).
  now rewrite ingest_history_length.
Qed.

Lemma run_aligned es : forall k s,
  ~ congestion_threshold_rtt s == 0 ->
  capacities_kept s -> aligned k s ->
  aligned (k + count_ticks es) (run es s)
  /\ capacities_kept (run es s)
  /\ congestion_threshold_rtt (run es s) = congestion_threshold_rtt s
  /\ history_length (run es s) = history_length s
  /\ (deque_len (throughput_values s) = filled k s ->
      all_elapsed_positive es s ->
      deque_len (throughput_values (run es s))
      = filled (k + count_ticks es) (run es s)).
Proof.
  induction es as [|e es IH]; intros k s Hthr Hcap Hal.
  - cbn [count_ticks]. rewrite Nat.add_0_r.
    change (run [] s) with s.
    split; [exact Hal|]. split; [exact Hcap|].
    split; [reflexivity|]. split; [reflexivity|]. auto.
  - unfold run in *. cbn [fold_left].
    destruct e as [clock|p]; cbn [step count_ticks].
    + destruct (IH (S k) (tick clock s)) as (A & B & C & D & E).
      * now rewrite tick_threshold_rtt.
      * now apply tick_capacities.
      * now apply tick_aligned.
      * replace (k + S (count_ticks es))%nat
          with (S k + count_ticks es)%nat by lia.
        split; [exact A|]. split; [exact B|].
        split; [now rewrite C, tick_threshold_rtt|].
        split; [now rewrite D, tick_history_length|].
        intros L [Hpos Hrest]. apply E; [|exact Hrest].
        now apply tick_throughput_aligned.
    + destruct (IH k (ingest p s)) as (A & B & C & D & E).
      * now rewrite ingest_threshold_rtt.
      * now apply ingest_capacities.
      * now apply ingest_aligned.
      * split; [exact A|]. split; [exact B|].
        split; [now rewrite C, ingest_threshold_rtt|].
        split; [now rewrite D, ingest_history_length|].
        intros L [_ Hrest]. apply E; [|exact Hrest].
        destruct (ingest_buffers p s)
          as (_ & _ & _ & -> & _).
        unfold filled. now rewrite ingest_history_length.
Qed.

(** Every append of a callback is first-in first-out. *)
Lemma tick_fifo clock s :
  fifo_append (time_values s) (time_values (tick clock s))
    (clock - start_time s)
  /\ fifo_append (cwnd_values s) (cwnd_values (tick clock s)) (latest_cwnd s)
  /\ fifo_append (rtt_values s) (rtt_values (tick clock s)) (latest_rtt s)
  /\ (forall q, tick_score clock s = Ok q ->
       fifo_append (congestion_values s) (congestion_values (tick clock s)) q)
  /\ (0 < time_elapsed clock s ->
      fifo_append (throughput_values s) (throughput_values (tick clock s))
        (inject_Z (packet_count s) / time_elapsed clock s)).
Proof.
  rewrite tick_time_values, tick_cwnd_values, tick_rtt_values,
    tick_throughput_values.
  split; [apply deque_append_fifo|]. split; [apply deque_append_fifo|].
  split; [apply deque_append_fifo|]. split.
  - intros q Hq. pose proof (tick_congestion clock s) as H.
    rewrite Hq in H. destruct H as [-> _]. apply deque_append_fifo.
  - intro He. apply Qltb_lt in He. rewrite He. apply deque_append_fifo.
Qed.

(** C2, as the code has it.  The constructor seeds every buffer with one
    dummy entry, so after a run with [k] callbacks, interleaved with any
    packets, the time, window, RTT and score buffers each hold
    min(k + 1, history_length) entries, given a non-zero RTT threshold
    (with a zero one the scorer raises before the score buffer is
    reached).  The throughput buffer holds as many when every callback of
    the run found a strictly positive elapsed time.  Each append is
    first-in first-out: below capacity the buffer grows by the new entry,
    at capacity the oldest entry leaves as the new one enters. *)
Theorem history_buffers_aligned hl thr thc clock0 clock1 s0 es clock :
  init hl thr thc clock0 clock1 = Ok s0 ->
  ~ thr == 0 ->
  (deque_len (time_values (run es s0))
     = Nat.min (S (count_ticks es)) (Z.to_nat hl)
   /\ deque_len (cwnd_values (run es s0))
     = Nat.min (S (count_ticks es)) (Z.to_nat hl)
   /\ deque_len (rtt_values (run es s0))
     = Nat.min (S (count_ticks es)) (Z.to_nat hl)
   /\ deque_len (congestion_values (run es s0))
     = Nat.min (S (count_ticks es)) (Z.to_nat hl))
  /\ (all_elapsed_positive es s0 ->
      deque_len (throughput_values (run es s0))
      = Nat.min (S (count_ticks es)) (Z.to_nat hl))
  /\ (fifo_append (time_values (run es s0))
        (time_values (tick clock (run es s0)))
        (clock - start_time (run es s0))
      /\ fifo_append (cwnd_values (run es s0))
           (cwnd_values (tick clock (run es s0))) (latest_cwnd (run es s0))
      /\ fifo_append (rtt_values (run es s0))
           (rtt_values (tick clock (run es s0))) (latest_rtt (run es s0))
      /\ (exists q,
            tick_score clock (run es s0) = Ok q
            /\ fifo_append (congestion_values (run es s0))
                 (congestion_values (tick clock (run es s0))) q)
      /\ (0 < time_elapsed clock (run es s0) ->
          fifo_append (throughput_values (run es s0))
            (throughput_values (tick clock (run es s0)))
            (inject_Z (packet_count (run es s0))
             / time_elapsed clock (run es s0)))).
Proof.
  intros Hinit Hthr. unfold init in Hinit.
  destruct (hl <? 0)%Z; [discriminate|]. injection Hinit as <-.
  set (s0 := fresh (Z.to_nat hl) thr thc clock0 clock1).
  destruct (fresh_aligned (Z.to_nat hl) thr thc clock0 clock1) as [Hal Hp].
  destruct (run_aligned es 0 s0 Hthr
              (fresh_capacities _ _ _ _ _) Hal) as (A & _ & C & D & E).
  fold s0 in Hp. cbn [Nat.add] in A, E.
  unfold aligned, filled in A. unfold filled in E.
  rewrite D in A, E. change (history_length s0) with (Z.to_nat hl) in A, E.
  split; [exact A|]. split; [exact (E Hp)|].
  destruct (tick_fifo clock (run es s0)) as (F1 & F2 & F3 & F4 & F5).
  split; [exact F1|]. split; [exact F2|]. split; [exact F3|].
  split; [|exact F5].
  destruct (calculate_congestion_total (tick clock (run es s0))
              (latest_rtt (run es s0)) (latest_cwnd (run es s0)))
    as [q Hq].
  - rewrite tick_threshold_rtt, C. exact Hthr.
  - exists q. split; [exact Hq|]. now apply F4.
Qed.

End Runs.

(** A quiet period after one packet: the window 100 it carried is
    appended by each of the three callbacks. *)
Example quiet_period_repeats :
  items (cwnd_values (ticks [1 # 2; 1; 3 # 2]
                        (ingest demo_int demo_float pkt_full viz_default)))
  = [Some 0%Z; Some 100%Z; Some 100%Z; Some 100%Z].
Proof. vm_compute. reflexivity. Qed.

(** The four kinds of packet of the examples, one after the other. *)
Example capture_mixed_packets :
  let s := capture_packets demo_int demo_float
             [pkt_full; pkt_bad_window; pkt_no_tcp; pkt_bare] viz_default in
  packet_count s = 4%Z
  /\ latest_cwnd s = Some 100%Z
  /\ latest_rtt s = Some ((15 # 100) * 1000).
Proof. repeat split. Qed.

(** C2 on a run of two packets and two callbacks from the default
    object. *)
Lemma history_buffers_aligned_witness :
  init 100 100 (7 # 10) 0 0 = Ok viz_default
  /\ ~ 100 == 0
  /\ (deque_len (time_values (run demo_int demo_float es_demo viz_default))
       = Nat.min (S (count_ticks es_demo)) (Z.to_nat 100)
      /\ deque_len (cwnd_values (run demo_int demo_float es_demo viz_default))
       = Nat.min (S (count_ticks es_demo)) (Z.to_nat 100)
      /\ deque_len (rtt_values (run demo_int demo_float es_demo viz_default))
       = Nat.min (S (count_ticks es_demo)) (Z.to_nat 100)
      /\ deque_len
           (congestion_values (run demo_int demo_float es_demo viz_default))
       = Nat.min (S (count_ticks es_demo)) (Z.to_nat 100))
  /\ (all_elapsed_positive demo_int demo_float es_demo viz_default ->
      deque_len
        (throughput_values (run demo_int demo_float es_demo viz_default))
      = Nat.min (S (count_ticks es_demo)) (Z.to_nat 100)).
Proof.
  split; [reflexivity|]. split; [discriminate|].
  destruct (history_buffers_aligned demo_int demo_float
              100 100 (7 # 10) 0 0 viz_default es_demo 2)
    as (A & B & _); [reflexivity | discriminate |].
  split; [exact A | exact B].
Defined.

Example es_demo_elapsed_positive :
  all_elapsed_positive demo_int demo_float es_demo viz_default.
Proof. repeat split. Qed.

(** C2 as written fails: one callback after construction leaves two
    entries in the time buffer, the seed and the sample, where the
    sentence counts one. *)
Lemma seed_entry_counts : ~ claimed_history_lengths.
Proof.
  intro H.
  specialize (H 100%Z 100 (7 # 10) 0 0 viz_default [1 # 2] eq_refl).
  cbv zeta in H. destruct H as [H _].
  vm_compute in H. discriminate H.
Qed.

Example one_tick_lengths :
  deque_len (time_values (tick (1 # 2) viz_default)) = 2%nat
  /\ deque_len (throughput_values (tick (1 # 2) viz_default)) = 2%nat
  /\ deque_len (congestion_values (tick (1 # 2) viz_default)) = 2%nat.
Proof. repeat split. Qed.

(** The constructor stores an absolute clock reading in
    [last_throughput_time], where the callback compares it with a time
    relative to [start_time].  Built at reading 1000 and called back half
    a second later, the object finds a negative elapsed time: the time
    buffer grows, the throughput buffer does not, and the 250 packets
    counted are dropped. *)
Example absolute_seed_time_skips_throughput :
  time_elapsed (1000 + (1 # 2)) viz_late < 0
  /\ deque_len (time_values (tick (1000 + (1 # 2)) viz_late)) = 2%nat
  /\ deque_len (throughput_values (tick (1000 + (1 # 2)) viz_late)) = 1%nat
  /\ packet_count viz_late = 250%Z
  /\ packet_count (tick (1000 + (1 # 2)) viz_late) = 0%Z.
Proof. repeat split. Qed.

(** With a zero RTT threshold and both readings present the scorer
    raises inside the callback, after the window and RTT buffers were
    appended and before the score buffer is. *)
Example zero_threshold_breaks_alignment :
  let s := ingest demo_int demo_float pkt_full (fresh 100 0 (7 # 10) 0 0) in
  fst (update_plot (1 # 2) s) = Raise ZeroDivisionError
  /\ deque_len (rtt_values (tick (1 # 2) s)) = 2%nat
  /\ deque_len (congestion_values (tick (1 # 2) s)) = 1%nat.
Proof. repeat split. Qed.

(** Fifth scenario of the specification: 150 callbacks, one per second,
    on a capacity of 100 leave 100 entries, the oldest being the sample
    of second 51. *)
Example scenario_eviction :
  let s := ticks (map (fun n => inject_Z (Z.of_nat n)) (seq 1 150))
             viz_default in
  deque_len (time_values s) = 100%nat
  /\ deque_len (throughput_values s) = 100%nat
  /\ deque_len (congestion_values s) = 100%nat
  /\ hd 0 (items (time_values s)) == 51.
Proof. vm_compute. repeat split. Qed.

(** * Further properties of the monitor *)

(** ** Outcome of the callback *)

Lemma update_congestion_result ct s :
  fst (update_congestion ct s) =
  match calculate_congestion s (latest_rtt s) (latest_cwnd s) with
  | Ok (Some c) => Ok (Qltb (7 # 10) c)
  | Ok None => Ok false
  | Raise e => Raise e
  end.
Proof.
  unfold update_congestion, bind, get, lift, modify, ret,
    append_congestion, append_event.
  destruct (calculate_congestion s (latest_rtt s) (latest_cwnd s)) as [[c|]|];
    cbn; try reflexivity.
  destruct (Qltb (7 # 10) c); reflexivity.
Qed.

(** The outcome of the callback, from the score of the tick. *)
Lemma update_plot_result clock s :
  fst (update_plot clock s) =
  match tick_score clock s with
  | Ok (Some c) => Ok (Qltb (7 # 10) c)
  | Ok None => Ok false
  | Raise e => Raise e
  end.
Proof.
  rewrite update_plot_unfold. cbv zeta. rewrite update_congestion_result.
  unfold tick_score. rewrite tick_unfold. cbv zeta.
  rewrite after_congestion_scorer.
  set (ct := clock - start_time s).
  set (pre := after_rtt (after_cwnd (after_time ct (after_throughput ct s)))).
  assert (latest_rtt pre = latest_rtt s) as ->
    by (subst pre; tick_cases; reflexivity).
  assert (latest_cwnd pre = latest_cwnd s) as ->
    by (subst pre; tick_cases; congruence).
  reflexivity.
Qed.

(** The scorer raises exactly on a zero threshold with both readings. *)
Lemma calculate_congestion_raise_iff self rtt cwnd e :
  calculate_congestion self rtt cwnd = Raise e <->
  e = ZeroDivisionError /\ congestion_threshold_rtt self == 0
  /\ rtt <> None /\ cwnd <> None.
Proof.
  split.
  - destruct rtt as [r|], cwnd as [c|]; try discriminate.
    destruct (Qeq_dec (congestion_threshold_rtt self) 0) as [Z|NZ].
    + rewrite calculate_congestion_raises by exact Z.
      intro H. injection H as <-. repeat split; try discriminate. exact Z.
    + rewrite calculate_congestion_some by exact NZ. discriminate.
  - intros (-> & Z & Hr & Hc).
    destruct rtt as [r|]; [|congruence]. destruct cwnd as [c|]; [|congruence].
    now apply calculate_congestion_raises.
Qed.

(** X1.  With a zero RTT threshold and both readings present, the
    statements under the lock raise ZeroDivisionError from the scorer
    call.  By then the packet counter is reset and the time, window and
    RTT buffers have their new entry; the score buffer and the event list
    are as they were. *)
Theorem zero_threshold_raises clock s :
  congestion_threshold_rtt s == 0 ->
  latest_rtt s <> None -> latest_cwnd s <> None ->
  fst (update_plot clock s) = Raise ZeroDivisionError
  /\ packet_count (tick clock s) = 0%Z
  /\ time_values (tick clock s)
     = deque_append (time_values s) (clock - start_time s)
  /\ cwnd_values (tick clock s)
     = deque_append (cwnd_values s) (latest_cwnd s)
  /\ rtt_values (tick clock s)
     = deque_append (rtt_values s) (latest_rtt s)
  /\ congestion_values (tick clock s) = congestion_values s
  /\ congestion_events (tick clock s) = congestion_events s.
Proof.
  intros Hz Hr Hc.
  assert (tick_score clock s = Raise ZeroDivisionError) as H.
  { unfold tick_score. apply calculate_congestion_raise_iff.
    rewrite tick_threshold_rtt. auto. }
  pose proof (tick_congestion clock s) as T. rewrite H in T.
  destruct T as [Tv Te].
  split; [now rewrite update_plot_result, H|].
  split; [apply tick_packet_count|]. split; [apply tick_time_values|].
  split; [apply tick_cwnd_values|]. split; [apply tick_rtt_values|].
  split; assumption.
Qed.

Lemma zero_threshold_raises_witness :
  fst (update_plot (1 # 2)
         (set_latest_rtt (Some 80)
            (set_latest_cwnd (Some 100%Z) (fresh 100 0 (7 # 10) 0 0))))
  = Raise ZeroDivisionError.
Proof.
  apply (zero_threshold_raises (1 # 2)
           (set_latest_rtt (Some 80)
              (set_latest_cwnd (Some 100%Z) (fresh 100 0 (7 # 10) 0 0))));
    [reflexivity | discriminate | discriminate].
Defined.

(** X2.  The value returned to the drawing part, [is_congested], is true
    exactly when the callback appended an event. *)
Theorem is_congested_iff_event clock s :
  fst (update_plot clock s) = Ok true <-> event_appended clock s.
Proof.
  rewrite update_plot_result. unfold event_appended.
  pose proof (tick_congestion clock s) as T.
  destruct (tick_score clock s) as [[c|]|e]; destruct T as [_ ->].
  - destruct (Qltb (7 # 10) c); split; intro H; try reflexivity.
    + discriminate.
    + symmetry in H. now apply app_one_neq in H.
  - split; intro H; [discriminate|].
    symmetry in H. now apply app_one_neq in H.
  - split; intro H; [discriminate|].
    symmetry in H. now apply app_one_neq in H.
Qed.

(** ** More on the scorer *)

Lemma Qlt_div_mult a b c : 0 < c -> a < b / c -> a * c < b.
Proof.
  intros Hc H.
  assert (b / c * c == b) as E by (field; lra).
  rewrite <- E. apply Qmult_lt_compat_r; assumption.
Qed.

Lemma Qdiv_lt_mult a b c : 0 < c -> a / c < b -> a < b * c.
Proof.
  intros Hc H.
  assert (a / c * c == a) as E by (field; lra).
  rewrite <- E. apply Qmult_lt_compat_r; assumption.
Qed.

Lemma py_min_le_l a b : py_min a b <= a.
Proof. destruct (py_min_cases a b) as [[? ->]|[? ->]]; lra. Qed.

Lemma py_min_le_r a b : py_min a b <= b.
Proof. destruct (py_min_cases a b) as [[? ->]|[? ->]]; lra. Qed.

(** X3.  An event needs both signals.  With a positive RTT threshold, a
    positive largest window and a non-negative window, a score above 0.7
    is reached only when the RTT is above 40% of the threshold and the
    window is below 60% of the largest window seen. *)
Theorem event_needs_both_signals self r c q :
  0 < congestion_threshold_rtt self -> (0 < max_cwnd self)%Z ->
  (0 <= c)%Z ->
  calculate_congestion self (Some r) (Some c) = Ok (Some q) ->
  7 # 10 < q ->
  (4 # 10) * congestion_threshold_rtt self < r
  /\ inject_Z c < (6 # 10) * inject_Z (max_cwnd self).
Proof.
  intros Ht Hm Hc E Hq.
  rewrite calculate_congestion_some in E by lra.
  injection E as <-.
  apply Z.ltb_lt in Hm as Hm'. rewrite Hm' in Hq.
  pose proof (inject_Z_pos _ Hm) as Hmq.
  pose proof (Qdiv_nonneg _ _ (inject_Z_nonneg _ Hc) Hmq) as Hw.
  pose proof (py_min_le_l 1 (r / congestion_threshold_rtt self)) as A1.
  pose proof (py_min_le_r 1 (r / congestion_threshold_rtt self)) as A2.
  rewrite Qhalf in Hq.
  assert (4 # 10 < r / congestion_threshold_rtt self
          /\ inject_Z c / inject_Z (max_cwnd self) < 6 # 10) as [B1 B2].
  { generalize dependent (r / congestion_threshold_rtt self).
    generalize dependent (inject_Z c / inject_Z (max_cwnd self)).
    intros w Hw x Hq A1 A2.
    destruct (py_min_cases 1 w) as [[? Ew]|[? Ew]]; rewrite Ew in Hq;
      split; lra. }
  split.
  - now apply Qlt_div_mult.
  - now apply Qdiv_lt_mult.
Qed.

Lemma event_needs_both_signals_witness :
  (4 # 10) * congestion_threshold_rtt viz_default < 150
  /\ inject_Z 100 < (6 # 10) * inject_Z (max_cwnd viz_default).
Proof.
  apply (event_needs_both_signals viz_default 150 100%Z (1900 # 2000));
    reflexivity || discriminate.
Defined.

(** X4.  RTT saturation.  Once the RTT is at or above a positive
    threshold, a larger RTT no longer changes the score, and the score is
    at least one half whatever the window. *)
Theorem rtt_saturates self r1 r2 c :
  0 < congestion_threshold_rtt self ->
  congestion_threshold_rtt self <= r1 ->
  congestion_threshold_rtt self <= r2 ->
  (0 <= c)%Z ->
  exists q,
    calculate_congestion self (Some r1) (Some c) = Ok (Some q)
    /\ calculate_congestion self (Some r2) (Some c) = Ok (Some q)
    /\ 1 # 2 <= q.
Proof.
  intros Ht H1 H2 Hc.
  rewrite !calculate_congestion_some by lra.
  assert (forall r, congestion_threshold_rtt self <= r ->
                    py_min 1 (r / congestion_threshold_rtt self) = 1) as S.
  { intros r Hr. destruct (py_min_cases 1 (r / congestion_threshold_rtt self))
      as [[L _]|[_ E]]; [|exact E].
    exfalso. apply Qdiv_lt_mult in L; [|exact Ht]. lra. }
  rewrite (S r1 H1), (S r2 H2).
  eexists. split; [reflexivity|]. split; [reflexivity|].
  rewrite Qhalf.
  destruct (0 <? max_cwnd self)%Z eqn:Em; [|lra].
  pose proof (py_min_le_l 1 (inject_Z c / inject_Z (max_cwnd self))).
  generalize dependent (py_min 1 (inject_Z c / inject_Z (max_cwnd self))).
  intros. lra.
Qed.

Lemma rtt_saturates_witness :
  exists q,
    calculate_congestion viz_default (Some 150) (Some 100%Z) = Ok (Some q)
    /\ calculate_congestion viz_default (Some 900) (Some 100%Z) = Ok (Some q)
    /\ 1 # 2 <= q.
Proof.
  apply (rtt_saturates viz_default 150 900 100%Z);
    reflexivity || discriminate.
Defined.

(** X5.  A callback whose window reading is at least the stored maximum
    records no event: the reading is then the maximum the scorer divides
    by, the window term is zero and the score stays at or below one
    half. *)
Theorem window_at_maximum_no_event clock s c :
  latest_cwnd s = Some c -> (max_cwnd s <= c)%Z ->
  congestion_events (tick clock s) = congestion_events s
  /\ (forall q, tick_score clock s = Ok (Some q) -> q <= 1 # 2).
Proof.
  intros Hc Hle.
  assert (max_cwnd (tick clock s) = c) as Hm.
  { rewrite tick_max_cwnd, Hc.
    destruct (max_cwnd s <? c)%Z eqn:E; [reflexivity|].
    apply Z.ltb_ge in E. lia. }
  assert (forall q, tick_score clock s = Ok (Some q) -> q <= 1 # 2) as Hq.
  { intros q. unfold tick_score. rewrite Hc.
    destruct (latest_rtt s) as [r|]; [|discriminate].
    destruct (Qeq_dec (congestion_threshold_rtt (tick clock s)) 0) as [Z|NZ].
    - rewrite calculate_congestion_raises by exact Z. discriminate.
    - rewrite calculate_congestion_some by exact NZ. rewrite Hm.
      intro E. injection E as <-. rewrite Qhalf.
      pose proof (py_min_le_l 1
                    (r / congestion_threshold_rtt (tick clock s))) as A.
      destruct (0 <? c)%Z eqn:Ec.
      + apply Z.ltb_lt in Ec. pose proof (inject_Z_pos _ Ec) as Hp.
        assert (py_min 1 (inject_Z c / inject_Z c) = 1) as ->.
        { destruct (py_min_cases 1 (inject_Z c / inject_Z c))
            as [[L _]|[_ E]]; [|exact E].
          exfalso. apply Qdiv_lt_mult in L; [|exact Hp]. lra. }
        lra.
      + lra. }
  split; [|exact Hq].
  pose proof (tick_congestion clock s) as T.
  destruct (tick_score clock s) as [[q|]|e]; destruct T as [_ ->];
    try reflexivity.
  specialize (Hq q eq_refl).
  assert (Qltb (7 # 10) q = false) as -> by (apply Qltb_ge; lra).
  reflexivity.
Qed.

Lemma window_at_maximum_no_event_witness :
  congestion_events
    (tick (1 # 2) (set_latest_rtt (Some 900)
                     (set_latest_cwnd (Some 2000%Z) viz_default)))
  = congestion_events
      (set_latest_rtt (Some 900) (set_latest_cwnd (Some 2000%Z) viz_default))
  /\ (forall q,
        tick_score (1 # 2)
          (set_latest_rtt (Some 900)
             (set_latest_cwnd (Some 2000%Z) viz_default)) = Ok (Some q) ->
        q <= 1 # 2).
Proof.
  apply (window_at_maximum_no_event (1 # 2)
           (set_latest_rtt (Some 900)
              (set_latest_cwnd (Some 2000%Z) viz_default)) 2000%Z).
  - reflexivity.
  - discriminate.
Defined.

(** ** The x-axis window *)

Lemma py_max_cases a b :
  (a < b /\ py_max a b = b) \/ (b <= a /\ py_max a b = a).
Proof.
  unfold py_max. destruct (Qltb a b) eqn:E.
  - left. split; [now apply Qltb_lt | reflexivity].
  - right. split; [now apply Qltb_ge | reflexivity].
Qed.

(** X6.  The x-axis limits are left alone exactly when there is no
    sample.  Otherwise the lower limit is never negative, the upper limit
    is one second past the newest sample, and the window is at most 21
    seconds wide; from the twentieth second on it is exactly 21 wide, and
    for a non-negative newest sample it is at least 1 wide. *)
Theorem x_limits_window time_list :
  (x_limits time_list = None <-> time_list = [])
  /\ (forall x_min x_max,
        x_limits time_list = Some (x_min, x_max) ->
        0 <= x_min
        /\ x_max = last time_list 0 + 1
        /\ x_max - x_min <= 21
        /\ (20 <= last time_list 0 -> x_max - x_min == 21)
        /\ (0 <= last time_list 0 -> 1 <= x_max - x_min)).
Proof.
  split.
  - destruct time_list; split; intro H; try reflexivity; discriminate.
  - intros x_min x_max H. destruct time_list as [|t l]; [discriminate|].
    remember (last (t :: l) 0) as n eqn:En.
    unfold x_limits in H. rewrite <- En in H. cbv zeta in H.
    injection H as <- <-.
    destruct (py_max_cases 0 (n - 20)) as [[L ->]|[L ->]];
      repeat split; intros; lra.
Qed.

Lemma deque_append_last {A} (d : deque A) x dflt :
  (0 < maxlen d)%nat -> last (items (deque_append d x)) dflt = x.
Proof.
  intro Hpos. unfold deque_append. cbn [items].
  destruct (maxlen d <? length (items d ++ [x]))%nat eqn:E.
  - apply Nat.ltb_lt in E. rewrite length_app in E. cbn [length] in E.
    destruct (items d) as [|a l]; [cbn in E; lia|].
    cbn [app tl]. apply last_last.
  - apply last_last.
Qed.

Lemma deque_append_zero {A} (d : deque A) x :
  maxlen d = 0%nat -> items d = [] -> items (deque_append d x) = [].
Proof.
  intros Hm Hi. unfold deque_append. rewrite Hm, Hi. reflexivity.
Qed.

Lemma deque_append_nonempty {A} (d : deque A) x :
  (0 < maxlen d)%nat -> items (deque_append d x) <> [].
Proof.
  intro Hpos. unfold deque_append. cbn [items].
  destruct (maxlen d <? length (items d ++ [x]))%nat eqn:E.
  - apply Nat.ltb_lt in E. rewrite length_app in E. cbn [length] in E.
    destruct (items d) as [|a l]; [cbn in E; lia|].
    cbn [app tl]. now destruct l.
  - now destruct (items d).
Qed.

(** X7.  After a callback on buffers of positive capacity the newest
    time sample is the current time, so the x-axis window set by that
    callback ends one second past it and starts 20 seconds before it, or
    at zero. *)
Theorem x_limits_follow_clock clock s :
  (0 < maxlen (time_values s))%nat ->
  last (items (time_values (tick clock s))) 0 = clock - start_time s
  /\ x_limits (items (time_values (tick clock s)))
     = Some (py_max 0 (clock - start_time s - 20), clock - start_time s + 1).
Proof.
  intro Hpos. rewrite tick_time_values.
  pose proof (deque_append_last (time_values s) (clock - start_time s) 0 Hpos)
    as L.
  pose proof (deque_append_nonempty (time_values s) (clock - start_time s)
                Hpos) as N.
  split; [exact L|].
  unfold x_limits.
  destruct (items (deque_append (time_values s) (clock - start_time s)))
    as [|t l] eqn:E; [congruence|].
  cbv zeta. rewrite L. reflexivity.
Qed.

Lemma x_limits_follow_clock_witness :
  last (items (time_values (tick 30 viz_default))) 0
  = 30 - start_time viz_default
  /\ x_limits (items (time_values (tick 30 viz_default)))
     = Some (py_max 0 (30 - start_time viz_default - 20),
             30 - start_time viz_default + 1).
Proof.
  apply (x_limits_follow_clock 30 viz_default). cbn. lia.
Defined.

(** ** Invariants of runs *)

Lemma lastn_app_lastn {A} n (l ys : list A) :
  lastn n (lastn n l ++ ys) = lastn n (l ++ ys).
Proof.
  unfold lastn.
  rewrite !skipn_app, skipn_skipn, !length_app, !length_skipn.
  f_equal; f_equal; lia.
Qed.

Lemma deque_append_lastn {A} (d : deque A) x :
  (deque_len d <= maxlen d)%nat ->
  items (deque_append d x) = lastn (maxlen d) (items d ++ [x]).
Proof.
  unfold deque_len, deque_append, lastn. cbn [items]. intro H.
  rewrite length_app. cbn [length].
  destruct (maxlen d <? length (items d) + 1)%nat eqn:E.
  - apply Nat.ltb_lt in E.
    replace (length (items d) + 1 - maxlen d)%nat with 1%nat by lia.
    reflexivity.
  - apply Nat.ltb_ge in E.
    replace (length (items d) + 1 - maxlen d)%nat with 0%nat by lia.
    reflexivity.
Qed.

Lemma deque_append_Forall {A} (P : A -> Prop) (d : deque A) x :
  Forall P (items d) -> P x -> Forall P (items (deque_append d x)).
Proof.
  intros Hd Hx. unfold deque_append. cbn [items].
  assert (Forall P (items d ++ [x])) as F
    by (apply Forall_app; split; [exact Hd | now constructor]).
  destruct (maxlen d <? length (items d ++ [x]))%nat; [|exact F].
  destruct (items d ++ [x]); [exact F|]. now inversion F.
Qed.

Section RunInvariants.

Variable py_int : string -> option Z.
Variable py_float : string -> option Q.

#[local] Abbreviation ingest := (ingest py_int py_float).
#[local] Abbreviation process_packet := (process_packet py_int py_float).
#[local] Abbreviation capture_packets := (capture_packets py_int py_float).
#[local] Abbreviation step := (step py_int py_float).
#[local] Abbreviation run := (run py_int py_float).

Ltac packet_cases p :=
  unfold ingest, process_packet, try_except,
    packet_body, bind, get_tcp, parse, modify, ret, lift;
  destruct (tcp p) as [l|]; cbn;
  [ destruct (window_size_value l) as [x|]; cbn;
    [ destruct (py_int x) as [v|]; cbn |];
    (destruct (analysis_ack_rtt l) as [y|]; cbn;
     [ destruct (py_float y) as [f|]; cbn |])
  | ].

Lemma ingest_clocks p s :
  last_throughput_time (ingest p s) = last_throughput_time s
  /\ start_time (ingest p s) = start_time s
  /\ congestion_threshold_cwnd (ingest p s) = congestion_threshold_cwnd s.
Proof. packet_cases p; repeat split; reflexivity. Qed.

Lemma step_start_time e s : start_time (step e s) = start_time s.
Proof.
  destruct e as [c|p]; cbn; [apply tick_start_time | apply ingest_clocks].
Qed.

Lemma step_threshold_rtt e s :
  congestion_threshold_rtt (step e s) = congestion_threshold_rtt s.
Proof.
  destruct e as [c|p]; cbn;
    [apply tick_threshold_rtt | apply ingest_threshold_rtt].
Qed.

Lemma step_history_length e s : history_length (step e s) = history_length s.
Proof.
  destruct e as [c|p]; cbn;
    [apply tick_history_length | apply ingest_history_length].
Qed.

Lemma run_cons e es s : run (e :: es) s = run es (step e s).
Proof. reflexivity. Qed.

Lemma run_start_time es : forall s, start_time (run es s) = start_time s.
Proof.
  induction es as [|e es IH]; intro s; [reflexivity|].
  rewrite run_cons, IH. apply step_start_time.
Qed.

Lemma run_threshold_rtt es : forall s,
  congestion_threshold_rtt (run es s) = congestion_threshold_rtt s.
Proof.
  induction es as [|e es IH]; intro s; [reflexivity|].
  rewrite run_cons, IH. apply step_threshold_rtt.
Qed.

Lemma run_history_length es : forall s,
  history_length (run es s) = history_length s.
Proof.
  induction es as [|e es IH]; intro s; [reflexivity|].
  rewrite run_cons, IH. apply step_history_length.
Qed.

Lemma step_capacities e s : capacities_kept s -> capacities_kept (step e s).
Proof.
  destruct e as [c|p]; cbn.
  - apply tick_capacities.
  - unfold capacities_kept.
    destruct (ingest_buffers py_int py_float p s)
      as (-> & -> & -> & -> & -> & _).
    now rewrite ingest_history_length.
Qed.

(** The sizes of the five buffers, whatever the threshold. *)
Lemma run_sizes es : forall k s,
  capacities_kept s ->
  deque_len (time_values s) = filled k s ->
  deque_len (cwnd_values s) = filled k s ->
  deque_len (rtt_values s) = filled k s ->
  (deque_len (congestion_values s) <= filled k s)%nat ->
  (deque_len (throughput_values s) <= filled k s)%nat ->
  deque_len (time_values (run es s)) = filled (k + count_ticks es) s
  /\ deque_len (cwnd_values (run es s)) = filled (k + count_ticks es) s
  /\ deque_len (rtt_values (run es s)) = filled (k + count_ticks es) s
  /\ (deque_len (congestion_values (run es s))
      <= filled (k + count_ticks es) s)%nat
  /\ (deque_len (throughput_values (run es s))
      <= filled (k + count_ticks es) s)%nat.
Proof.
  induction es as [|e es IH]; intros k s Hcap Lt Lc Lr Lg Lp.
  - cbn [count_ticks]. rewrite Nat.add_0_r. change (run [] s) with s. auto.
  - rewrite run_cons. destruct e as [clock|p]; cbn [step count_ticks].
    + replace (k + S (count_ticks es))%nat
        with (S k + count_ticks es)%nat by lia.
      assert (forall j, filled j (tick clock s) = filled j s) as Hf
        by (intro j; unfold filled; now rewrite tick_history_length).
      rewrite <- (Hf (S k + count_ticks es)%nat).
      pose proof (filled_le k s) as Hle.
      pose proof (filled_succ k s) as Hs.
      destruct Hcap as (Ht & Hc & Hr & Hp & Hg).
      apply IH.
      * apply tick_capacities. repeat split; assumption.
      * rewrite tick_time_values, deque_append_len by lia.
        now rewrite Hf, Ht, Lt.
      * rewrite tick_cwnd_values, deque_append_len by lia.
        now rewrite Hf, Hc, Lc.
      * rewrite tick_rtt_values, deque_append_len by lia.
        now rewrite Hf, Hr, Lr.
      * rewrite Hf. pose proof (tick_congestion clock s) as T.
        destruct (tick_score clock s); destruct T as [-> _].
        -- rewrite deque_append_len by lia. rewrite Hg. lia.
        -- unfold filled in *. lia.
      * rewrite Hf, tick_throughput_values.
        destruct (Qltb 0 (time_elapsed clock s)).
        -- rewrite deque_append_len by lia. rewrite Hp. lia.
        -- unfold filled in *. lia.
    + assert (forall j, filled j (ingest p s) = filled j s) as Hf
        by (intro j; unfold filled; now rewrite ingest_history_length).
      rewrite <- (Hf (k + count_ticks es)%nat).
      destruct (ingest_buffers py_int py_float p s)
        as (Et & Ec & Er & Ep & Eg & _).
      apply IH.
      * now apply (step_capacities (Capture p)).
      * now rewrite Et, Hf.
      * now rewrite Ec, Hf.
      * now rewrite Er, Hf.
      * now rewrite Eg, Hf.
      * now rewrite Ep, Hf.
Qed.

(** X8.  Whatever the thresholds, zero included, and whatever the
    interleaving: after a run with k callbacks the time, window and RTT
    buffers hold min(k + 1, history_length) entries each, and the score
    and throughput buffers never hold more than they do.  No buffer ever
    exceeds [history_length]. *)
Theorem buffer_sizes hl thr thc clock0 clock1 s0 es :
  init hl thr thc clock0 clock1 = Ok s0 ->
  deque_len (time_values (run es s0))
    = Nat.min (S (count_ticks es)) (Z.to_nat hl)
  /\ deque_len (cwnd_values (run es s0))
     = deque_len (time_values (run es s0))
  /\ deque_len (rtt_values (run es s0))
     = deque_len (time_values (run es s0))
  /\ (deque_len (congestion_values (run es s0))
      <= deque_len (time_values (run es s0)))%nat
  /\ (deque_len (throughput_values (run es s0))
      <= deque_len (time_values (run es s0)))%nat
  /\ (deque_len (time_values (run es s0)) <= Z.to_nat hl)%nat.
Proof.
  intro Hinit. unfold init in Hinit.
  destruct (hl <? 0)%Z; [discriminate|]. injection Hinit as <-.
  set (s0 := fresh (Z.to_nat hl) thr thc clock0 clock1).
  destruct (fresh_aligned (Z.to_nat hl) thr thc clock0 clock1)
    as [(Lt & Lc & Lr & Lg) Lp].
  fold s0 in Lt, Lc, Lr, Lg, Lp.
  destruct (run_sizes es 0 s0 (fresh_capacities _ _ _ _ _) Lt Lc Lr)
    as (A & B & C & D & E); [lia | lia |].
  cbn [Nat.add] in *. unfold filled in *.
  change (history_length s0) with (Z.to_nat hl) in *.
  rewrite A, B, C. repeat split; try assumption; lia.
Qed.

(** X9.  The largest window seen starts at 1000 and never goes down, so
    it stays at least 1000 along every run: the fallback of the scorer
    for a non-positive maximum is never taken, the division by the
    maximum never raises, and with a non-zero RTT threshold the score of
    two present readings is always the mean of the two normalised
    terms. *)
Theorem window_fallback_unreachable hl thr thc clock0 clock1 s0 es :
  init hl thr thc clock0 clock1 = Ok s0 ->
  (1000 <= max_cwnd (run es s0))%Z
  /\ (forall r c,
        ~ thr == 0 ->
        calculate_congestion (run es s0) (Some r) (Some c)
        = Ok (Some ((py_min 1 (r / thr)
                     + (1 - py_min 1 (inject_Z c
                                      / inject_Z (max_cwnd (run es s0)))))
                    / 2))).
Proof.
  intro Hinit. unfold init in Hinit.
  destruct (hl <? 0)%Z; [discriminate|]. injection Hinit as <-.
  set (s0 := fresh (Z.to_nat hl) thr thc clock0 clock1).
  pose proof (run_max_cwnd_le py_int py_float es s0) as Hm.
  change (max_cwnd s0) with 1000%Z in Hm.
  split; [exact Hm|].
  intros r c Hthr.
  assert (congestion_threshold_rtt (run es s0) = thr) as Et
    by (rewrite run_threshold_rtt; reflexivity).
  rewrite calculate_congestion_some by (rewrite Et; exact Hthr).
  rewrite Et.
  assert ((0 <? max_cwnd (run es s0))%Z = true) as ->
    by (apply Z.ltb_lt; lia).
  reflexivity.
Qed.

Lemma step_nonneg e s :
  (0 <= packet_count s)%Z ->
  Forall (fun x => 0 <= x) (items (throughput_values s)) ->
  (0 <= packet_count (step e s))%Z
  /\ Forall (fun x => 0 <= x) (items (throughput_values (step e s))).
Proof.
  intros Hc Hf. destruct e as [clock|p]; cbn [step].
  - rewrite tick_packet_count, tick_throughput_values.
    split; [lia|].
    destruct (Qltb 0 (time_elapsed clock s)) eqn:E; [|exact Hf].
    apply Qltb_lt in E. apply deque_append_Forall; [exact Hf|].
    apply Qdiv_nonneg; [now apply inject_Z_nonneg | exact E].
  - rewrite ingest_packet_count.
    destruct (ingest_buffers py_int py_float p s) as (_ & _ & _ & -> & _).
    split; [lia | exact Hf].
Qed.

Lemma run_nonneg es : forall s,
  (0 <= packet_count s)%Z ->
  Forall (fun x => 0 <= x) (items (throughput_values s)) ->
  (0 <= packet_count (run es s))%Z
  /\ Forall (fun x => 0 <= x) (items (throughput_values (run es s))).
Proof.
  induction es as [|e es IH]; intros s Hc Hf; [now split|].
  rewrite run_cons. destruct (step_nonneg e s Hc Hf). now apply IH.
Qed.

(** X10.  Along every run of a constructed object the packet counter is
    never negative and every entry of the throughput buffer is a
    non-negative rate. *)
Theorem throughput_never_negative hl thr thc clock0 clock1 s0 es :
  init hl thr thc clock0 clock1 = Ok s0 ->
  (0 <= packet_count (run es s0))%Z
  /\ Forall (fun x => 0 <= x) (items (throughput_values (run es s0))).
Proof.
  intro Hinit. unfold init in Hinit.
  destruct (hl <? 0)%Z; [discriminate|]. injection Hinit as <-.
  apply run_nonneg.
  - cbn. lia.
  - cbn [fresh throughput_values].
    apply deque_append_Forall; [constructor | lra].
Qed.

Lemma step_last_throughput_time e s :
  last_throughput_time s <= last_throughput_time (step e s).
Proof.
  destruct e as [clock|p]; cbn [step].
  - rewrite tick_last_throughput_time.
    destruct (Qltb 0 (time_elapsed clock s)) eqn:E; [|lra].
    apply Qltb_lt in E. unfold time_elapsed in E. lra.
  - destruct (ingest_clocks p s) as (-> & _). lra.
Qed.

(** X11.  [last_throughput_time] never goes back along a run, whatever
    the clock readings: it only moves when a callback finds a strictly
    positive elapsed time, and then forward. *)
Theorem last_throughput_time_monotone es s :
  last_throughput_time s <= last_throughput_time (run es s).
Proof.
  revert s. induction es as [|e es IH]; intro s.
  - change (run [] s) with s. lra.
  - rewrite run_cons. pose proof (step_last_throughput_time e s).
    specialize (IH (step e s)). lra.
Qed.

Lemma step_events e s :
  congestion_events (step e s) = congestion_events s
  \/ exists c, e = Tick c
               /\ congestion_events (step e s)
                  = congestion_events s ++ [c - start_time s].
Proof.
  destruct e as [clock|p]; cbn [step].
  - pose proof (tick_congestion clock s) as T.
    destruct (tick_score clock s) as [q|]; destruct T as [_ ->];
      [|now left].
    destruct (match q with Some c => Qltb (7 # 10) c | None => false end);
      [|now left].
    right. exists clock. now split.
  - left. apply ingest_buffers.
Qed.

(** X12.  The event list is append-only.  A run leaves the events it
    found in place and adds at most one per callback, each at the current
    time of one of its callbacks; packets add none. *)
Theorem events_append_only es s :
  exists added,
    congestion_events (run es s) = congestion_events s ++ added
    /\ (length added <= count_ticks es)%nat
    /\ (forall t, In t added ->
                  exists c, In (Tick c) es /\ t = c - start_time s).
Proof.
  revert s. induction es as [|e es IH]; intro s.
  - exists []. change (run [] s) with s. rewrite app_nil_r.
    split; [reflexivity|]. split; [cbn; lia|]. intros t [].
  - rewrite run_cons. destruct (IH (step e s)) as (added & E & L & I).
    rewrite step_start_time in I.
    destruct (step_events e s) as [Same | (c & -> & App)].
    + exists added. rewrite E, Same. split; [reflexivity|]. split.
      * destruct e; cbn [count_ticks]; lia.
      * intros t Ht. destruct (I t Ht) as (c & Hc & ->).
        exists c. split; [now right | reflexivity].
    + exists ((c - start_time s) :: added). rewrite E, App, <- app_assoc.
      split; [reflexivity|]. split; [cbn [length count_ticks]; lia|].
      intros t [<- | Ht].
      * exists c. split; [now left | reflexivity].
      * destruct (I t Ht) as (c' & Hc & ->).
        exists c'. split; [now right | reflexivity].
Qed.

Lemma capture_packets_cons p ps s :
  capture_packets (p :: ps) s = capture_packets ps (ingest p s).
Proof. reflexivity. Qed.

(** X13.  The packet loop never touches the history: after any list of
    packets the five buffers, the event list, the largest window seen and
    [last_throughput_time] are what they were. *)
Theorem capture_packets_frame ps s :
  time_values (capture_packets ps s) = time_values s
  /\ cwnd_values (capture_packets ps s) = cwnd_values s
  /\ rtt_values (capture_packets ps s) = rtt_values s
  /\ throughput_values (capture_packets ps s) = throughput_values s
  /\ congestion_values (capture_packets ps s) = congestion_values s
  /\ congestion_events (capture_packets ps s) = congestion_events s
  /\ max_cwnd (capture_packets ps s) = max_cwnd s
  /\ last_throughput_time (capture_packets ps s) = last_throughput_time s
  /\ start_time (capture_packets ps s) = start_time s.
Proof.
  revert s. induction ps as [|p ps IH]; intro s.
  - repeat split.
  - rewrite capture_packets_cons.
    destruct (IH (ingest p s)) as (-> & -> & -> & -> & -> & -> & -> & -> & ->).
    destruct (ingest_buffers py_int py_float p s)
      as (-> & -> & -> & -> & -> & ->).
    destruct (ingest_clocks p s) as (-> & -> & _).
    rewrite ingest_max_cwnd. repeat split.
Qed.

Lemma capture_packets_elapsed ps s clock :
  time_elapsed clock (capture_packets ps s) = time_elapsed clock s.
Proof.
  unfold time_elapsed.
  destruct (capture_packets_frame ps s) as (_ & _ & _ & _ & _ & _ & _ & -> & ->).
  reflexivity.
Qed.

(** X14.  A throughput sample counts the packets captured since the
    previous callback and nothing else.  After a callback, a list of
    packets and a second callback that finds a positive elapsed time, the
    rate appended is the number of those packets over the elapsed time.
    When the first callback found no positive elapsed time, the packets
    counted before it appear in no sample. *)
Theorem throughput_counts_packets_since_callback clock1 clock2 ps s :
  0 < time_elapsed clock2 (tick clock1 s) ->
  packet_count (capture_packets ps (tick clock1 s)) = Z.of_nat (length ps)
  /\ throughput_values (tick clock2 (capture_packets ps (tick clock1 s)))
     = deque_append (throughput_values (tick clock1 s))
         (inject_Z (Z.of_nat (length ps))
          / time_elapsed clock2 (tick clock1 s))
  /\ (time_elapsed clock1 s <= 0 ->
      throughput_values (tick clock2 (capture_packets ps (tick clock1 s)))
      = deque_append (throughput_values s)
          (inject_Z (Z.of_nat (length ps))
           / time_elapsed clock2 (tick clock1 s))).
Proof.
  intro He.
  assert (packet_count (capture_packets ps (tick clock1 s))
          = Z.of_nat (length ps)) as Hc.
  { rewrite (capture_packets_count py_int py_float), tick_packet_count. lia. }
  assert (throughput_values
            (tick clock2 (capture_packets ps (tick clock1 s)))
          = deque_append (throughput_values (tick clock1 s))
              (inject_Z (Z.of_nat (length ps))
               / time_elapsed clock2 (tick clock1 s))) as Ht.
  { rewrite tick_throughput_values, capture_packets_elapsed, Hc.
    apply Qltb_lt in He. rewrite He.
    destruct (capture_packets_frame ps (tick clock1 s))
      as (_ & _ & _ & -> & _).
    reflexivity. }
  split; [exact Hc|]. split; [exact Ht|].
  intro Hskip. rewrite Ht. f_equal.
  rewrite tick_throughput_values.
  apply Qltb_ge in Hskip. now rewrite Hskip.
Qed.

Lemma step_len_bound e s :
  (deque_len (time_values s) <= maxlen (time_values s))%nat ->
  (deque_len (time_values (step e s)) <= maxlen (time_values (step e s)))%nat.
Proof.
  intro H. destruct e as [clock|p]; cbn [step].
  - rewrite tick_time_values, deque_append_len by exact H.
    rewrite deque_append_maxlen. lia.
  - destruct (ingest_buffers py_int py_float p s) as (-> & _). exact H.
Qed.

Lemma run_time_items es : forall s,
  (deque_len (time_values s) <= maxlen (time_values s))%nat ->
  items (time_values (run es s))
  = lastn (maxlen (time_values s))
      (items (time_values s)
       ++ map (fun c => c - start_time s) (tick_clocks es)).
Proof.
  induction es as [|e es IH]; intros s H.
  - change (run [] s) with s. cbn [tick_clocks map]. rewrite app_nil_r.
    unfold lastn. unfold deque_len in H.
    replace (length (items (time_values s)) - maxlen (time_values s))%nat
      with 0%nat by lia.
    reflexivity.
  - rewrite run_cons, IH by now apply step_len_bound.
    rewrite step_start_time.
    destruct e as [clock|p]; cbn [step tick_clocks map].
    + rewrite tick_time_values, deque_append_maxlen.
      rewrite deque_append_lastn by exact H.
      rewrite lastn_app_lastn, <- app_assoc. reflexivity.
    + destruct (ingest_buffers py_int py_float p s) as (-> & _).
      reflexivity.
Qed.

(** X15.  The time buffer holds the most recent samples in order.  After
    any run of a constructed object its content is the last
    [history_length] elements of the seed 0 followed by the current times
    of the callbacks, oldest first. *)
Theorem time_buffer_keeps_most_recent hl thr thc clock0 clock1 s0 es :
  init hl thr thc clock0 clock1 = Ok s0 ->
  items (time_values (run es s0))
  = lastn (Z.to_nat hl)
      (0 :: map (fun c => c - clock1) (tick_clocks es)).
Proof.
  intro Hinit. unfold init in Hinit.
  destruct (hl <? 0)%Z; [discriminate|]. injection Hinit as <-.
  set (s0 := fresh (Z.to_nat hl) thr thc clock0 clock1).
  rewrite run_time_items.
  - change (maxlen (time_values s0)) with (Z.to_nat hl).
    change (start_time s0) with clock1.
    change (items (time_values s0))
      with (items (deque_append (@deque_new Q (Z.to_nat hl)) 0)).
    rewrite deque_append_lastn by (cbn; lia).
    cbn [deque_new maxlen items app].
    rewrite lastn_app_lastn. reflexivity.
  - destruct (fresh_aligned (Z.to_nat hl) thr thc clock0 clock1)
      as [(Lt & _) _].
    fold s0 in Lt. rewrite Lt. unfold filled.
    change (maxlen (time_values s0)) with (Z.to_nat hl).
    change (history_length s0) with (Z.to_nat hl). lia.
Qed.

(** X16.  A window text that [int] rejects ends the iteration on the
    spot: the packet is counted, the latest window keeps its value, and
    the RTT of the same packet is not looked at, so the latest RTT keeps
    its value too, even when the RTT field is present and well formed. *)
Theorem rejected_window_blocks_rtt p l x s :
  tcp p = Some l -> window_size_value l = Some x -> py_int x = None ->
  packet_count (ingest p s) = (packet_count s + 1)%Z
  /\ latest_cwnd (ingest p s) = latest_cwnd s
  /\ latest_rtt (ingest p s) = latest_rtt s.
Proof.
  intros Hl Hx Hi.
  rewrite ingest_packet_count, (ingest_latest_cwnd py_int py_float),
    (ingest_latest_rtt py_int py_float), Hl, Hx, Hi.
  split; [reflexivity|]. split; [reflexivity|].
  destruct (analysis_ack_rtt l); reflexivity.
Qed.

End RunInvariants.

Lemma buffer_sizes_witness :
  deque_len (time_values (run demo_int demo_float es_demo viz_default))
    = Nat.min (S (count_ticks es_demo)) (Z.to_nat 100)
  /\ deque_len (cwnd_values (run demo_int demo_float es_demo viz_default))
     = deque_len (time_values (run demo_int demo_float es_demo viz_default))
  /\ deque_len (rtt_values (run demo_int demo_float es_demo viz_default))
     = deque_len (time_values (run demo_int demo_float es_demo viz_default))
  /\ (deque_len
        (congestion_values (run demo_int demo_float es_demo viz_default))
      <= deque_len
           (time_values (run demo_int demo_float es_demo viz_default)))%nat
  /\ (deque_len
        (throughput_values (run demo_int demo_float es_demo viz_default))
      <= deque_len
           (time_values (run demo_int demo_float es_demo viz_default)))%nat
  /\ (deque_len (time_values (run demo_int demo_float es_demo viz_default))
      <= Z.to_nat 100)%nat.
Proof.
  apply (buffer_sizes demo_int demo_float 100 100 (7 # 10) 0 0 viz_default
           es_demo).
  reflexivity.
Defined.

Lemma window_fallback_unreachable_witness :
  (1000 <= max_cwnd (run demo_int demo_float es_demo viz_default))%Z
  /\ (forall r c,
        ~ 100 == 0 ->
        calculate_congestion (run demo_int demo_float es_demo viz_default)
          (Some r) (Some c)
        = Ok (Some ((py_min 1 (r / 100)
                     + (1 - py_min 1
                              (inject_Z c
                               / inject_Z
                                   (max_cwnd
                                      (run demo_int demo_float es_demo
                                         viz_default)))))
                    / 2))).
Proof.
  apply (window_fallback_unreachable demo_int demo_float 100 100 (7 # 10)
           0 0 viz_default es_demo).
  reflexivity.
Defined.

Lemma throughput_never_negative_witness :
  (0 <= packet_count (run demo_int demo_float es_demo viz_default))%Z
  /\ Forall (fun x => 0 <= x)
       (items (throughput_values
                 (run demo_int demo_float es_demo viz_default))).
Proof.
  apply (throughput_never_negative demo_int demo_float 100 100 (7 # 10)
           0 0 viz_default es_demo).
  reflexivity.
Defined.

Lemma throughput_counts_packets_since_callback_witness :
  packet_count
    (capture_packets demo_int demo_float (repeat pkt_bare 250)
       (tick 0 viz_default)) = Z.of_nat (length (repeat pkt_bare 250))
  /\ throughput_values
       (tick (1 # 2)
          (capture_packets demo_int demo_float (repeat pkt_bare 250)
             (tick 0 viz_default)))
     = deque_append (throughput_values (tick 0 viz_default))
         (inject_Z (Z.of_nat (length (repeat pkt_bare 250)))
          / time_elapsed (1 # 2) (tick 0 viz_default))
  /\ (time_elapsed 0 viz_default <= 0 ->
      throughput_values
        (tick (1 # 2)
           (capture_packets demo_int demo_float (repeat pkt_bare 250)
              (tick 0 viz_default)))
      = deque_append (throughput_values viz_default)
          (inject_Z (Z.of_nat (length (repeat pkt_bare 250)))
           / time_elapsed (1 # 2) (tick 0 viz_default))).
Proof.
  apply (throughput_counts_packets_since_callback demo_int demo_float
           0 (1 # 2) (repeat pkt_bare 250) viz_default).
  reflexivity.
Defined.

Lemma time_buffer_keeps_most_recent_witness :
  items (time_values (run demo_int demo_float es_demo viz_default))
  = lastn (Z.to_nat 100) (0 :: map (fun c => c - 0) (tick_clocks es_demo)).
Proof.
  apply (time_buffer_keeps_most_recent demo_int demo_float 100 100 (7 # 10)
           0 0 viz_default es_demo).
  reflexivity.
Defined.

Lemma rejected_window_blocks_rtt_witness :
  packet_count (ingest demo_int demo_float pkt_bad_window viz_default)
  = (packet_count viz_default + 1)%Z
  /\ latest_cwnd (ingest demo_int demo_float pkt_bad_window viz_default)
     = latest_cwnd viz_default
  /\ latest_rtt (ingest demo_int demo_float pkt_bad_window viz_default)
     = latest_rtt viz_default.
Proof.
  apply (rejected_window_blocks_rtt demo_int demo_float pkt_bad_window
           (mkTcp (Some "junk"%string) (Some "0.15"%string)) "junk"%string
           viz_default); reflexivity.
Defined.

(** * Properties of the echo server *)

Section ServerFacts.

Import Server.

Variable utf8_valid : list Byte.byte -> bool.

#[local] Abbreviation serve_loop := (Server.serve_loop utf8_valid).
#[local] Abbreviation handle_client := (Server.handle_client utf8_valid).
#[local] Abbreviation good_turn := (Server.good_turn utf8_valid).

(** The connection after a stretch of turns that all go well. *)
Lemma serve_loop_good good : forall rest c,
  Forall good_turn good ->
  serve_loop (good ++ rest) c
  = serve_loop rest
      (mkConn (sent c ++ chunks good)
         (log_file c ++ map entry_of (filter write_ok good))
         (closed c)).
Proof.
  induction good as [|t good IH]; intros rest c Hg.
  - cbn. rewrite !app_nil_r. now destruct c.
  - inversion Hg as [|t' g' (data & Hr & Hne & Hv & Hs) Hg']; subst.
    destruct data as [|b data]; [congruence|].
    assert (entry_of t = log_entry (timestamp t) (length (b :: data))) as Ee
      by (unfold entry_of; now rewrite Hr).
    cbn [app Server.serve_loop chunks filter]. rewrite Hr, Hv, Hs.
    destruct (write_ok t); cbn [sent log_file closed map];
      rewrite IH by assumption; cbn [sent log_file closed];
      rewrite ?Ee, <- !app_assoc; reflexivity.
Qed.

Lemma serve_loop_closed turns : forall c,
  closed (snd (serve_loop turns c)) = closed c.
Proof.
  induction turns as [|t turns IH]; intro c; [reflexivity|].
  cbn [Server.serve_loop].
  destruct (recv t) as [[|b data]|e]; try reflexivity.
  destruct (utf8_valid (b :: data)), (write_ok t), (sendall t);
    try reflexivity; rewrite IH; reflexivity.
Qed.

Lemma serve_loop_sent turns : forall c,
  exists k,
    sent (snd (serve_loop turns c)) = sent c ++ firstn k (chunks turns)
    /\ Forall (fun d => d <> [] /\ utf8_valid d = true)
         (firstn k (chunks turns)).
Proof.
  induction turns as [|t turns IH]; intro c.
  - exists 0%nat. cbn. rewrite app_nil_r. now split.
  - cbn [Server.serve_loop chunks].
    destruct (recv t) as [[|b data]|e].
    + exists 0%nat. cbn. rewrite app_nil_r. now split.
    + destruct (utf8_valid (b :: data)) eqn:Ev.
      * destruct (sendall t).
        -- match goal with
           | |- context [serve_loop turns ?c'] => destruct (IH c') as (k & E & F)
           end.
           exists (S k). rewrite E. cbn [firstn].
           destruct (write_ok t); cbn [sent]; rewrite <- app_assoc;
             (split; [reflexivity|]); constructor; try exact F;
             (split; [discriminate | exact Ev]).
        -- exists 0%nat. destruct (write_ok t); cbn; rewrite app_nil_r;
             now split.
      * exists 0%nat. destruct (write_ok t); cbn; rewrite app_nil_r;
          now split.
    + destruct (IH c) as (k & E & F).
      exists 0%nat. cbn. rewrite app_nil_r. now split.
Qed.

Lemma handle_client_sent turns c :
  sent (snd (handle_client turns c)) = sent (snd (serve_loop turns c)).
Proof.
  unfold Server.handle_client.
  destruct (serve_loop turns c) as [[| |[]] c']; reflexivity.
Qed.

(** X17.  The server echoes what it received and nothing else: on a
    fresh connection the chunks sent back are, in order and unchanged, a
    prefix of the chunks handed over by [recv], and every chunk sent back
    is non-empty and decodes. *)
Theorem echo_is_prefix_of_received turns :
  exists k,
    sent (snd (handle_client turns opened)) = firstn k (chunks turns)
    /\ Forall (fun d => d <> [] /\ utf8_valid d = true)
         (sent (snd (handle_client turns opened))).
Proof.
  destruct (serve_loop_sent turns opened) as (k & E & F).
  exists k. rewrite handle_client_sent, E. cbn [sent opened app].
  now split.
Qed.


(** X19.  The connection is closed exactly when the handler has ended:
    on a connection that was open, it is closed after a return or an
    escaping exception, and still open while the loop is waiting for the
    next chunk. *)
Theorem closed_iff_ended turns c :
  closed c = false ->
  (closed (snd (handle_client turns c)) = true
   <-> fst (handle_client turns c) <> Running).
Proof.
  intro Hc. pose proof (serve_loop_closed turns c) as H.
  unfold Server.handle_client.
  destruct (serve_loop turns c) as [[| |[]] c']; cbn in H |- *;
    split; intro K; try reflexivity; try discriminate; congruence.
Qed.

(** X20.  A chunk that does not decode ends the session with an
    exception that nobody catches: after any stretch of good turns, such
    a chunk is written to the log (when the write goes through) but not
    echoed, the handler lets UnicodeDecodeError through, the connection
    is closed and later turns are not served. *)
Theorem undecodable_chunk_ends_session good t data rest :
  Forall good_turn good ->
  recv t = Done data -> data <> [] -> utf8_valid data = false ->
  handle_client (good ++ t :: rest) opened
  = (Propagated UnicodeDecodeError,
     mkConn (chunks good)
       (map entry_of (filter write_ok good)
        ++ if write_ok t then [log_entry (timestamp t) (length data)] else [])
       true).
Proof.
  intros Hg Hr Hne Hv. unfold Server.handle_client.
  rewrite serve_loop_good by exact Hg.
  cbn [Server.serve_loop]. rewrite Hr.
  destruct data as [|b data]; [congruence|]. rewrite Hv.
  destruct (write_ok t); cbn; rewrite ?app_nil_r; reflexivity.
Qed.

(** X21.  A connection reset is swallowed, anything else is not.  When
    [recv] raises after a stretch of good turns, the handler returns
    normally for ConnectionResetError and lets any other exception
    through; either way the chunks of the good turns were echoed, the
    connection is closed and later turns are not served. *)
Theorem recv_failure_ends_session good t e rest :
  Forall good_turn good -> recv t = Fail e ->
  handle_client (good ++ t :: rest) opened
  = (match e with
     | ConnectionResetError => Returned
     | _ => Propagated e
     end,
     mkConn (chunks good) (map entry_of (filter write_ok good)) true).
Proof.
  intros Hg Hr. unfold Server.handle_client.
  rewrite serve_loop_good by exact Hg.
  cbn [Server.serve_loop]. rewrite Hr. destruct e; reflexivity.
Qed.

Lemma serve_loop_without_log turns : forall c c',
  sent c = sent c' ->
  fst (serve_loop (map without_log turns) c) = fst (serve_loop turns c')
  /\ sent (snd (serve_loop (map without_log turns) c))
     = sent (snd (serve_loop turns c'))
  /\ log_file (snd (serve_loop (map without_log turns) c)) = log_file c.
Proof.
  induction turns as [|t turns IH]; intros c c' Hs; [now repeat split|].
  cbn [map Server.serve_loop without_log recv write_ok sendall timestamp].
  destruct (recv t) as [[|b data]|e]; try (now repeat split).
  destruct (utf8_valid (b :: data)).
  - destruct (sendall t).
    + match goal with
      | |- context [serve_loop (map without_log turns) ?c1] =>
          match goal with
          | |- context [serve_loop turns ?c2] =>
              destruct (IH c1 c2) as (A & B & C)
          end
      end.
      * destruct (write_ok t); cbn [sent]; now rewrite Hs.
      * rewrite A, B, C. now repeat split.
    + destruct (write_ok t); now repeat split.
  - destruct (write_ok t); now repeat split.
Qed.

(** X22.  A log file that cannot be written does not disturb the echo:
    with every write failing, the handler ends the same way and sends
    back the same chunks, and the log is left as it was. *)
Theorem log_failure_keeps_echo turns c :
  fst (handle_client (map without_log turns) c) = fst (handle_client turns c)
  /\ sent (snd (handle_client (map without_log turns) c))
     = sent (snd (handle_client turns c))
  /\ log_file (snd (handle_client (map without_log turns) c)) = log_file c.
Proof.
  destruct (serve_loop_without_log turns c c eq_refl) as (A & B & C).
  rewrite !handle_client_sent.
  split; [|split; [exact B|]].
  - unfold Server.handle_client.
    destruct (serve_loop (map without_log turns) c) as [e1 c1],
             (serve_loop turns c) as [e2 c2].
    cbn [fst] in A. subst e2. destruct e1 as [| |[]]; reflexivity.
  - unfold Server.handle_client.
    destruct (serve_loop (map without_log turns) c) as [[| |[]] c1];
      exact C.
Qed.

End ServerFacts.


Example hello_session_log :
  Server.log_file
    (snd (Server.handle_client Server.ascii_only
            [Server.turn_hello; Server.turn_eof] Server.opened))
  = [("2024-01-01 00:00:00,5" ++ String (Ascii.ascii_of_nat 10) EmptyString)%string].
Proof. reflexivity. Qed.

Lemma closed_iff_ended_witness :
  Server.closed
    (snd (Server.handle_client Server.ascii_only
            [Server.turn_hello; Server.turn_eof] Server.opened)) = true
  <-> fst (Server.handle_client Server.ascii_only
             [Server.turn_hello; Server.turn_eof] Server.opened)
      <> Server.Running.
Proof.
  apply (closed_iff_ended Server.ascii_only
           [Server.turn_hello; Server.turn_eof] Server.opened).
  reflexivity.
Defined.

Lemma undecodable_chunk_ends_session_witness :
  Server.handle_client Server.ascii_only
    ([Server.turn_hello] ++ Server.turn_binary :: [Server.turn_hello])
    Server.opened
  = (Server.Propagated Server.UnicodeDecodeError,
     Server.mkConn (Server.chunks [Server.turn_hello])
       (map Server.entry_of (filter Server.write_ok [Server.turn_hello])
        ++ if Server.write_ok Server.turn_binary
           then [Server.log_entry (Server.timestamp Server.turn_binary)
                   (length [Byte.xff; Byte.xfe])]
           else [])
       true).
Proof.
  apply (undecodable_chunk_ends_session Server.ascii_only
           [Server.turn_hello] Server.turn_binary [Byte.xff; Byte.xfe]
           [Server.turn_hello]).
  - constructor; [|constructor].
    exists [Byte.x48; Byte.x65; Byte.x6c; Byte.x6c; Byte.x6f].
    repeat split. discriminate.
  - reflexivity.
  - discriminate.
  - reflexivity.
Defined.

Lemma recv_failure_ends_session_witness :
  Server.handle_client Server.ascii_only
    ([Server.turn_hello]
     ++ Server.mkTurn (Server.Fail Server.ConnectionResetError)
          "2024-01-01 00:00:03" true (Server.Done tt)
     :: [Server.turn_hello])
    Server.opened
  = (Server.Returned,
     Server.mkConn (Server.chunks [Server.turn_hello])
       (map Server.entry_of (filter Server.write_ok [Server.turn_hello]))
       true).
Proof.
  apply (recv_failure_ends_session Server.ascii_only [Server.turn_hello]
           (Server.mkTurn (Server.Fail Server.ConnectionResetError)
              "2024-01-01 00:00:03" true (Server.Done tt))
           Server.ConnectionResetError [Server.turn_hello]).
  - constructor; [|constructor].
    exists [Byte.x48; Byte.x65; Byte.x6c; Byte.x6c; Byte.x6f].
    repeat split. discriminate.
  - reflexivity.
Defined.

(** * Properties of the traffic generator *)

Section ClientFacts.

Import Client.

Variable p : params.
Variable random_text : nat -> string.
Variable send_ok : nat -> bool.
Variable sleep_too_long : Q -> bool.
Variable random_draw : nat -> Q.
Variable uniform_draw : nat -> Q.

#[local] Abbreviation send_one := (Client.send_one p random_text send_ok).
#[local] Abbreviation sleep := (Client.sleep sleep_too_long).
#[local] Abbreviation burst :=
  (Client.burst p random_text send_ok sleep_too_long).
#[local] Abbreviation single :=
  (Client.single p random_text send_ok sleep_too_long uniform_draw).
#[local] Abbreviation iteration :=
  (Client.iteration p random_text send_ok sleep_too_long random_draw
     uniform_draw).
#[local] Abbreviation iterations :=
  (Client.iterations p random_text send_ok sleep_too_long random_draw
     uniform_draw).
#[local] Abbreviation send_messages :=
  (Client.send_messages p random_text send_ok sleep_too_long random_draw
     uniform_draw).

(** What holds of the trace at every point of the loop: the messages
    sent carry the numbers 0, 1, 2, ... in order, and every pause taken
    is non-negative and is either the burst pause or at least
    [min_interval]. *)
Let numbered (st : state) : Prop :=
  sent st
  = map (fun k => format_message k (random_text k))
      (seq 0 (message_count st)).

Let paused (st : state) : Prop :=
  Forall (fun x => 0 <= x /\ (x = burst_interval p \/ min_interval p <= x))
    (slept st).

Let inv (st : state) : Prop := numbered st /\ paused st.

Lemma send_one_inv st : inv st -> inv (snd (send_one st)).
Proof.
  intros [Hn Hp]. unfold Client.send_one.
  destruct (generate_random_string p random_text (message_count st))
    as [text|] eqn:G; [|now split].
  destruct (send_ok (message_count st)); [|now split].
  split; [|exact Hp].
  unfold numbered in *. cbn [sent message_count snd].
  rewrite seq_S, map_app, <- Hn. cbn [map Nat.add].
  unfold generate_random_string in G.
  destruct (max_size p <? min_size p)%Z; [discriminate|].
  now injection G as <-.
Qed.

Lemma sleep_inv x st :
  (x = burst_interval p \/ min_interval p <= x) ->
  inv st -> inv (snd (sleep x st)).
Proof.
  intros Hx [Hn Hp]. unfold Client.sleep.
  destruct (sleep_too_long x); [now split|].
  destruct (Qltb x 0) eqn:E; [now split|].
  apply Qltb_ge in E. split; [exact Hn|].
  unfold paused. cbn [slept snd]. apply Forall_app. split; [exact Hp|].
  constructor; [now split | constructor].
Qed.

Lemma burst_inv k : forall st, inv st -> inv (snd (burst k st)).
Proof.
  induction k as [|k IH]; intros st H; [exact H|].
  cbn [Client.burst].
  pose proof (send_one_inv st H) as H1.
  destruct (send_one st) as [[|e] st1]; [|exact H1].
  cbn [snd] in H1.
  pose proof (sleep_inv (burst_interval p) st1 (or_introl eq_refl) H1) as H2.
  destruct (sleep (burst_interval p) st1) as [[|e] st2]; [|exact H2].
  now apply IH.
Qed.

Lemma single_inv i st : inv st -> inv (snd (single i st)).
Proof.
  intro H. unfold Client.single.
  pose proof (send_one_inv st H) as H1.
  destruct (send_one st) as [[|e] st1]; [|exact H1].
  apply sleep_inv; [|exact H1]. right.
  destruct (py_max_cases (min_interval p) (uniform_draw i))
    as [[L ->]|[L ->]]; lra.
Qed.

Lemma report_inv st : inv st -> inv (report st).
Proof.
  intro H. unfold report.
  destruct (Nat.eqb (message_count st mod 100) 0); exact H.
Qed.

Lemma iteration_inv i st : inv st -> inv (snd (iteration i st)).
Proof.
  intro H. unfold Client.iteration.
  destruct (Qltb (random_draw i) (burst_probability p)).
  - pose proof (burst_inv (Z.to_nat (burst_messages p)) st H) as H1.
    destruct (burst (Z.to_nat (burst_messages p)) st) as [[|e] st1];
      [|exact H1].
    now apply report_inv.
  - pose proof (single_inv i st H) as H1.
    destruct (single i st) as [[|e] st1]; [|exact H1].
    now apply report_inv.
Qed.

Lemma iterations_inv n : forall i st, inv st -> inv (snd (iterations n i st)).
Proof.
  induction n as [|n IH]; intros i st H; [exact H|].
  cbn [Client.iterations].
  pose proof (iteration_inv i st H) as H1.
  destruct (iteration i st) as [[|e] st1]; [|exact H1].
  now apply IH.
Qed.

Lemma start_inv : inv start.
Proof. split; [reflexivity | constructor]. Qed.

(** X23.  The messages are numbered without gap or repeat.  At every
    point of the loop, bursts included and also when it has just failed,
    the messages sent so far are "Message 0: ...", "Message 1: ...", and
    so on in order, one per unit of the counter. *)
Theorem messages_numbered_in_order n :
  sent (snd (send_messages n))
  = map (fun k => format_message k (random_text k))
      (seq 0 (message_count (snd (send_messages n))))
  /\ length (sent (snd (send_messages n)))
     = message_count (snd (send_messages n)).
Proof.
  destruct (iterations_inv n 0 start start_inv) as [Hn _].
  unfold Client.send_messages. split; [exact Hn|].
  rewrite Hn at 1. now rewrite length_map, length_seq.
Qed.

(** X24.  Every pause taken is non-negative, and is either the burst
    pause or at least [min_interval], whatever [random.uniform]
    returned. *)
Theorem pauses_bounded_below n :
  Forall (fun x => 0 <= x /\ (x = burst_interval p \/ min_interval p <= x))
    (slept (snd (send_messages n))).
Proof.
  destruct (iterations_inv n 0 start start_inv) as [_ Hp]. exact Hp.
Qed.

Lemma send_one_runs st :
  (min_size p <= max_size p)%Z -> (forall k, send_ok k = true) ->
  fst (send_one st) = Running.
Proof.
  intros Hs Hok. unfold Client.send_one, generate_random_string.
  assert ((max_size p <? min_size p)%Z = false) as ->
    by (apply Z.ltb_ge; lia).
  now rewrite Hok.
Qed.

Lemma sleep_runs x st :
  sleep_too_long x = false -> 0 <= x -> fst (sleep x st) = Running.
Proof.
  intros Hl H. unfold Client.sleep. apply Qltb_ge in H. now rewrite Hl, H.
Qed.

Lemma burst_runs k : forall st,
  (min_size p <= max_size p)%Z -> (forall k, send_ok k = true) ->
  0 <= burst_interval p -> sleep_too_long (burst_interval p) = false ->
  fst (burst k st) = Running.
Proof.
  induction k as [|k IH]; intros st Hs Hok Hb Hbl; [reflexivity|].
  cbn [Client.burst].
  pose proof (send_one_runs st Hs Hok) as H1.
  destruct (send_one st) as [r1 st1]. cbn [fst] in H1. subst r1.
  pose proof (sleep_runs (burst_interval p) st1 Hbl Hb) as H2.
  destruct (sleep (burst_interval p) st1) as [r2 st2].
  cbn [fst] in H2. subst r2. now apply IH.
Qed.

Lemma iteration_runs i st :
  (min_size p <= max_size p)%Z -> (forall k, send_ok k = true) ->
  0 <= burst_interval p -> 0 <= min_interval p ->
  sleep_too_long (burst_interval p) = false ->
  sleep_too_long (py_max (min_interval p) (uniform_draw i)) = false ->
  fst (iteration i st) = Running.
Proof.
  intros Hs Hok Hb Hm Hbl Hil. unfold Client.iteration.
  destruct (Qltb (random_draw i) (burst_probability p)).
  - pose proof (burst_runs (Z.to_nat (burst_messages p)) st Hs Hok Hb Hbl)
      as H.
    destruct (burst (Z.to_nat (burst_messages p)) st) as [r st1].
    cbn [fst] in H. now subst r.
  - unfold Client.single.
    pose proof (send_one_runs st Hs Hok) as H1.
    destruct (send_one st) as [r1 st1]. cbn [fst] in H1. subst r1.
    assert (0 <= py_max (min_interval p) (uniform_draw i)) as Hi
      by (destruct (py_max_cases (min_interval p) (uniform_draw i))
            as [[L ->]|[L ->]]; lra).
    pose proof (sleep_runs _ st1 Hil Hi) as H2.
    destruct (sleep (py_max (min_interval p) (uniform_draw i)) st1)
      as [r2 st2].
    cbn [fst] in H2. now subst r2.
Qed.

(** X25.  With a size range that is not empty and pauses that
    [time.sleep] accepts (a non-negative burst pause and a non-negative
    [min_interval], neither the burst pause nor any pause chosen between
    messages too long to convert), the loop never leaves through an
    exception of its own: as long as every [sendall] goes through it is
    still running after any number of iterations, whatever the random
    draws. *)
Theorem loop_keeps_running n :
  (min_size p <= max_size p)%Z -> (forall k, send_ok k = true) ->
  0 <= burst_interval p -> 0 <= min_interval p ->
  sleep_too_long (burst_interval p) = false ->
  (forall i, sleep_too_long (py_max (min_interval p) (uniform_draw i))
             = false) ->
  fst (send_messages n) = Running.
Proof.
  intros Hs Hok Hb Hm Hbl Hil. unfold Client.send_messages.
  generalize 0%nat at 1. generalize start.
  induction n as [|n IH]; intros st i; [reflexivity|].
  cbn [Client.iterations].
  pose proof (iteration_runs i st Hs Hok Hb Hm Hbl (Hil i)) as H.
  destruct (iteration i st) as [r st1]. cbn [fst] in H. subst r.
  apply IH.
Qed.

(** X26.  An empty burst sends nothing and does not pause.  When an
    iteration chooses a burst and [burst_messages] is zero or negative,
    the iteration ends with the same messages, the same pauses and the
    same counter as it began with, so the loop goes round without
    waiting. *)
Theorem empty_burst_spins i st :
  random_draw i < burst_probability p -> (burst_messages p <= 0)%Z ->
  fst (iteration i st) = Running
  /\ sent (snd (iteration i st)) = sent st
  /\ slept (snd (iteration i st)) = slept st
  /\ message_count (snd (iteration i st)) = message_count st.
Proof.
  intros Hd Hb. unfold Client.iteration.
  apply Qltb_lt in Hd. rewrite Hd.
  replace (Z.to_nat (burst_messages p)) with 0%nat by lia.
  cbn [Client.burst fst snd]. unfold report.
  destruct (Nat.eqb (message_count st mod 100) 0); repeat split.
Qed.

End ClientFacts.

Lemma loop_keeps_running_witness :
  fst (Client.send_messages Client.defaults (fun _ => "abc"%string)
         (fun _ => true) (fun x => Qltb 1000000 x)
         (fun _ => 1 # 2) (fun _ => 3 # 10) 5)
  = Client.Running.
Proof.
  apply (loop_keeps_running Client.defaults (fun _ => "abc"%string)
           (fun _ => true) (fun x => Qltb 1000000 x)
           (fun _ => 1 # 2) (fun _ => 3 # 10) 5).
  - cbn. lia.
  - reflexivity.
  - discriminate.
  - discriminate.
  - reflexivity.
  - reflexivity.
Defined.

Lemma empty_burst_spins_witness :
  fst (Client.iteration
         (Client.mkParams (1 # 2) (1 # 10) 1 0 (1 # 100) 10 1024)
         (fun _ => "abc"%string) (fun _ => true) (fun x => Qltb 1000000 x)
         (fun _ => 1 # 2) (fun _ => 3 # 10) 0 Client.start)
  = Client.Running
  /\ Client.sent
       (snd (Client.iteration
               (Client.mkParams (1 # 2) (1 # 10) 1 0 (1 # 100) 10 1024)
               (fun _ => "abc"%string) (fun _ => true)
               (fun x => Qltb 1000000 x)
               (fun _ => 1 # 2) (fun _ => 3 # 10) 0 Client.start))
     = Client.sent Client.start
  /\ Client.slept
       (snd (Client.iteration
               (Client.mkParams (1 # 2) (1 # 10) 1 0 (1 # 100) 10 1024)
               (fun _ => "abc"%string) (fun _ => true)
               (fun x => Qltb 1000000 x)
               (fun _ => 1 # 2) (fun _ => 3 # 10) 0 Client.start))
     = Client.slept Client.start
  /\ Client.message_count
       (snd (Client.iteration
               (Client.mkParams (1 # 2) (1 # 10) 1 0 (1 # 100) 10 1024)
               (fun _ => "abc"%string) (fun _ => true)
               (fun x => Qltb 1000000 x)
               (fun _ => 1 # 2) (fun _ => 3 # 10) 0 Client.start))
     = Client.message_count Client.start.
Proof.
  apply (empty_burst_spins
           (Client.mkParams (1 # 2) (1 # 10) 1 0 (1 # 100) 10 1024)
           (fun _ => "abc"%string) (fun _ => true)
           (fun x => Qltb 1000000 x)
           (fun _ => 1 # 2) (fun _ => 3 # 10) 0 Client.start).
  - reflexivity.
  - cbn. lia.
Defined.

(** Two iterations with the defaults: a burst of ten, then one message. *)
Example burst_then_single :
  let st := snd (Client.send_messages Client.defaults (fun _ => "abc"%string)
                   (fun _ => true) (fun x => Qltb 1000000 x)
                   (fun i => if Nat.eqb i 0 then 0 else 1 # 2)
                   (fun _ => 3 # 10) 2) in
  Client.message_count st = 11%nat
  /\ nth 10 (Client.sent st) EmptyString = "Message 10: abc"%string
  /\ Client.slept st = repeat (1 # 100) 10 ++ [3 # 10].
Proof. vm_compute. repeat split. Qed.

(** A pause too long for [time.sleep] ends the loop at its first pause,
    after the first message went out. *)
Example overlong_pause_ends_loop :
  Client.send_messages
    (Client.mkParams (1 # 2) 2000000 (1 # 10) 10 (1 # 100) 10 1024)
    (fun _ => "abc"%string) (fun _ => true) (fun x => Qltb 1000000 x)
    (fun _ => 1 # 2) (fun _ => 3 # 10) 3
  = (Client.Failed Client.OverflowError,
     Client.mkState 1 ["Message 0: abc"%string] [] []).
Proof. vm_compute. reflexivity. Qed.

(** ** The seed of [last_throughput_time]

    The constructor stores a reading of the clock itself in
    [last_throughput_time]; the callback compares it with a time counted
    from [start_time]. *)

Lemma fresh_time_elapsed n thr thc clock0 clock1 clock :
  time_elapsed clock (fresh n thr thc clock0 clock1)
  = clock - clock1 - clock0.
Proof. reflexivity. Qed.

(** As long as the clock has not passed the sum of the two constructor
    readings, no callback of a run appends a throughput sample. *)
Lemma early_callbacks_append_no_throughput py_int py_float es : forall s,
  (forall c, In (Tick c) es ->
             c <= start_time s + last_throughput_time s) ->
  throughput_values (run py_int py_float es s) = throughput_values s
  /\ last_throughput_time (run py_int py_float es s) = last_throughput_time s.
Proof.
  induction es as [|e es IH]; intros s H; [now split|].
  rewrite run_cons.
  assert (throughput_values (step py_int py_float e s) = throughput_values s
          /\ last_throughput_time (step py_int py_float e s)
             = last_throughput_time s
          /\ start_time (step py_int py_float e s) = start_time s)
    as (Et & El & Es).
  { destruct e as [c|p]; cbn [step].
    - assert (Qltb 0 (time_elapsed c s) = false) as E.
      { apply Qltb_ge. unfold time_elapsed.
        specialize (H c (or_introl eq_refl)). lra. }
      rewrite tick_throughput_values, tick_last_throughput_time,
        tick_start_time, E.
      now repeat split.
    - destruct (ingest_buffers py_int py_float p s) as (_ & _ & _ & -> & _).
      destruct (ingest_clocks py_int py_float p s) as (-> & -> & _).
      now repeat split. }
  destruct (IH (step py_int py_float e s)) as [A B].
  - intros c Hc. rewrite Es, El. apply H. now right.
  - rewrite A, B. now split.
Qed.

(** C7.  What the code does where the claim promises 500.  An object is
    built while the clock reads 1000, 250 packets are captured, and the
    callback runs half a second after construction.  The local
    [time_elapsed] is then 0.5 - 1000, the test [time_elapsed > 0] fails,
    no throughput sample is appended and the 250 packets are dropped from
    the count. *)
Theorem fresh_object_appends_no_throughput :
  init 100 100 (7 # 10) 1000 1000 = Ok (fresh 100 100 (7 # 10) 1000 1000)
  /\ packet_count viz_late = 250%Z
  /\ 1000 + (1 # 2) - start_time viz_late == 1 # 2
  /\ time_elapsed (1000 + (1 # 2)) viz_late == (1 # 2) - 1000
  /\ throughput_values (tick (1000 + (1 # 2)) viz_late)
     = throughput_values viz_late
  /\ items (throughput_values (tick (1000 + (1 # 2)) viz_late)) = [0]
  /\ packet_count (tick (1000 + (1 # 2)) viz_late) = 0%Z.
Proof. repeat split. Qed.
